(** * Context Hub scripts: a shallow embedding and its verified properties

    The development follows the four Python scripts under
    [.context/scripts/]:

    - [rules_indexer.py]            (module [RulesIndexer])
    - [scanner.py]                  (module [Scanner])
    - [generate_claude_context.py]  (module [ContextGenerator])
    - [master_indexer.py]           (module [MasterIndexer])

    Modelling conventions.

    - A Python [str] is a Rocq [string] holding the UTF-8 bytes of the text.
      [len] counts code points (the bytes that are not UTF-8 continuation
      bytes), as Python's [len] does.  Substring tests on UTF-8 bytes agree
      with substring tests on code points.
    - Character classes ([str.strip]'s whitespace, [str.lower], [str.upper],
      the regular expression class [\d]) are the ones Python uses on the
      ASCII range; bytes above 127 are left alone.
    - Python floats that hold relevance scores are idealised as rationals
      ([Q]); equality of scores is [Qeq].
    - A Python [dict] whose iteration order matters (the relevance map that
      is sorted with a stable sort) is an association list in insertion
      order; the other dictionaries are [gmap]s.
    - A JSON document on disk is a record of the fields its writer gives
      it; a file that does not exist is [None] or an absent key.
    - [print] is kept where a property speaks of what is logged (the
      orchestrator) and left out elsewhere.

    The file has three parts: the embedding of the scripts, the vocabulary
    the statements use together with the sample inputs, and the
    properties. *)

From Stdlib Require Import Ascii QArith Lia Bool DecimalString.
From stdpp Require Import gmap strings list sorting.

Local Open Scope nat_scope.

(** ** Python string operations *)

Module PyStr.

Definition is_empty (s : string) : bool :=
  match s with EmptyString => true | String _ _ => false end.

(** [str.isspace] on the ASCII range: TAB, LF, VT, FF, CR, FS, GS, RS, US
    and the space. *)
Definition is_space (c : ascii) : bool :=
  let n := nat_of_ascii c in
  ((9 <=? n) && (n <=? 13)) || ((28 <=? n) && (n <=? 32)).

Definition is_digit (c : ascii) : bool :=
  let n := nat_of_ascii c in (48 <=? n) && (n <=? 57).

Definition lower_char (c : ascii) : ascii :=
  let n := nat_of_ascii c in
  if (65 <=? n) && (n <=? 90) then ascii_of_nat (n + 32) else c.

Definition upper_char (c : ascii) : ascii :=
  let n := nat_of_ascii c in
  if (97 <=? n) && (n <=? 122) then ascii_of_nat (n - 32) else c.

Fixpoint map_chars (f : ascii -> ascii) (s : string) : string :=
  match s with
  | EmptyString => EmptyString
  | String c t => String (f c) (map_chars f t)
  end.

(** [s.lower()] and [s.upper()] *)
Definition lower : string -> string := map_chars lower_char.
Definition upper : string -> string := map_chars upper_char.

(** A UTF-8 continuation byte has the form 10xxxxxx. *)
Definition is_continuation (c : ascii) : bool :=
  let n := nat_of_ascii c in (128 <=? n) && (n <=? 191).

(** [len(s)]: the number of code points *)
Fixpoint len (s : string) : nat :=
  match s with
  | EmptyString => 0
  | String c t => if is_continuation c then len t else S (len t)
  end.

(** [s.startswith(p)] *)
Definition startswith (p s : string) : bool := String.prefix p s.

(** [k in s] *)
Fixpoint contains (k s : string) : bool :=
  String.prefix k s ||
  match s with
  | EmptyString => false
  | String _ t => contains k t
  end.

(** [s.endswith(p)] *)
Fixpoint endswith (p s : string) : bool :=
  String.eqb p s ||
  match s with
  | EmptyString => false
  | String _ t => endswith p t
  end.

Fixpoint lstrip_by (f : ascii -> bool) (s : string) : string :=
  match s with
  | EmptyString => EmptyString
  | String c t => if f c then lstrip_by f t else s
  end.

Fixpoint rstrip_by (f : ascii -> bool) (s : string) : string :=
  match s with
  | EmptyString => EmptyString
  | String c t =>
      let t' := rstrip_by f t in
      if f c && is_empty t' then EmptyString else String c t'
  end.

Definition strip_by (f : ascii -> bool) (s : string) : string :=
  rstrip_by f (lstrip_by f s).

(** [s.strip()] *)
Definition strip : string -> string := strip_by is_space.

(** [s.strip(c)] for a one-character argument *)
Definition strip_char (c : ascii) : string -> string := strip_by (Ascii.eqb c).

(** [s.replace(c, '')] for a one-character [c] *)
Fixpoint remove_char (c : ascii) (s : string) : string :=
  match s with
  | EmptyString => EmptyString
  | String d t => if Ascii.eqb c d then remove_char c t else String d (remove_char c t)
  end.

Definition LF : ascii := ascii_of_nat 10.

(** [s.split('\n')]: never empty, the last piece is what follows the last
    line feed. *)
Fixpoint split_lines (s : string) : list string :=
  match s with
  | EmptyString => [EmptyString]
  | String c t =>
      if Ascii.eqb c LF then EmptyString :: split_lines t
      else match split_lines t with
           | h :: r => String c h :: r
           | [] => [String c EmptyString]
           end
  end.

(** [sep.join(l)] *)
Fixpoint join (sep : string) (l : list string) : string :=
  match l with
  | [] => EmptyString
  | [x] => x
  | x :: r => x +:+ sep +:+ join sep r
  end.

(** [''.join(l)] *)
Definition concat (l : list string) : string := foldr String.append EmptyString l.

(** [s[n:]] on bytes *)
Fixpoint drop_chars (n : nat) (s : string) : string :=
  match n, s with
  | S k, String _ t => drop_chars k t
  | _, _ => s
  end.

End PyStr.

(** ** rules_indexer.py *)

Module RulesIndexer.
Import PyStr.

Inductive Priority := critical | high | medium | low.

Definition priority_name (p : Priority) : string :=
  match p with
  | critical => "critical"
  | high => "high"
  | medium => "medium"
  | low => "low"
  end.

Record rule := Rule {
  text : string;
  category : string;
  priority : Priority;
  source_file : option string
}.

(** The bullet U+2022, three bytes in UTF-8. *)
Definition bullet : string := "•".

(** The first alternative of the pattern, [^[-*•]]: the number of bytes it
    matches at the start of the line, if it matches. *)
Definition bullet_match (s : string) : option nat :=
  if startswith "-" s || startswith "*" s then Some 1
  else if startswith bullet s then Some (String.length bullet)
  else None.

(** The second alternative, [\d+\.]: the number of bytes it matches at the
    start of [s], if it matches.  The digits are taken greedily; giving some
    back never helps, since a digit is not a dot. *)
Fixpoint digits_dot (s : string) : option nat :=
  match s with
  | EmptyString => None
  | String c t =>
      if is_digit c then
        match t with
        | String "."%char _ => Some 2
        | _ => S <$> digits_dot t
        end
      else None
  end.

(** The pattern [^[-*•]|\d+\.] tried at one position; [at_start] says
    whether that position is the start of the line, where alone [^] holds.
    The alternation binds weaker than the anchor: the anchor belongs to the
    first alternative only. *)
Definition marker_match (at_start : bool) (s : string) : option nat :=
  match (if at_start then bullet_match s else None) with
  | Some n => Some n
  | None => digits_dot s
  end.

(** [re.match(r'^[-*•]|\d+\.', line)] as a truth value *)
Definition re_match_marker (line : string) : bool :=
  match marker_match true line with Some _ => true | None => false end.

(** [re.sub(r'^[-*•]|\d+\.', '', line)]: every non-overlapping match, found
    from left to right, is deleted.  [skip] counts the bytes of the current
    match that are still to be dropped. *)
Fixpoint re_sub_from (at_start : bool) (skip : nat) (s : string) : string :=
  match s with
  | EmptyString => EmptyString
  | String c t =>
      match skip with
      | S k => re_sub_from false k t
      | O =>
          match marker_match at_start s with
          | Some (S k) => re_sub_from false k t
          | _ => String c (re_sub_from false 0 t)
          end
      end
  end.

Definition re_sub_marker (line : string) : string := re_sub_from true 0 line.

(** The [if]/[elif] chain that detects priority markers. *)
Definition detect_priority (line : string) (current : Priority) : Priority :=
  if contains "CRITICAL" line || contains "MUST" line then critical
  else if contains "IMPORTANT" line || contains "SHOULD" line then high
  else if contains "OPTIONAL" line || contains "NICE TO HAVE" line then low
  else current.

(** The loop state of [parse_markdown_rule]. *)
Record pstate := PState {
  current_category : string;
  current_priority : Priority;
  rules : list rule
}.

Definition initial : pstate := PState "general" medium [].

Definition min_length : nat := 10.

(** The rule the list-item branch captures from a stripped line, if any. *)
Definition item_rule (cat : string) (p : Priority) (line : string) : option rule :=
  let rule_text := strip (re_sub_marker line) in
  if negb (is_empty rule_text) && (min_length <? len rule_text)
  then Some (Rule rule_text cat p None)
  else None.

(** The rule the inline-code branch captures from a stripped line, if any. *)
Definition code_rule (cat : string) (p : Priority) (line : string) : option rule :=
  let rule_text := strip_char "`"%char line in
  if min_length <? len rule_text
  then Some (Rule ("Code pattern: " +:+ rule_text) cat p None)
  else None.

(** What a stripped, non-empty, non-header line contributes, under the
    priority already updated by that line. *)
Definition capture (cat : string) (p : Priority) (line : string) : option rule :=
  if re_match_marker line then item_rule cat p line
  else if startswith "`" line && endswith "`" line then code_rule cat p line
  else None.

(** One iteration of the [for line in lines] loop. *)
Definition step (st : pstate) (raw : string) : pstate :=
  let line := strip raw in
  if is_empty line then st
  else if startswith "##" line then
    PState (lower (strip (remove_char "#"%char line))) (current_priority st) (rules st)
  else
    let p := detect_priority line (current_priority st) in
    match capture (current_category st) p line with
    | Some r => PState (current_category st) p (rules st ++ [r])
    | None => PState (current_category st) p (rules st)
    end.

Definition run_lines (lines : list string) (st : pstate) : pstate :=
  foldl step st lines.

Definition parse_markdown_rule (content : string) : list rule :=
  rules (run_lines (split_lines content) initial).

End RulesIndexer.


(** ** scanner.py *)

Module Scanner.
Import PyStr.

(** The part of [config.json] the scanner reads, with the working directory
    the script is started in. *)
Record config := Config {
  project_root : string;
  root_path : string;
  modules : list string;
  ignore_patterns : list string;
  max_file_size_kb : nat
}.

(** A file found by [source_root.rglob("*.swift")]: its path relative to the
    source root as a sequence of components, its size, and its text ([None]
    when reading it raises). *)
Record source_file := SourceFile {
  rel_parts : list string;
  size_bytes : nat;
  content : option string
}.

(** The File Record built by [analyze_file]. *)
Record file_info := FileInfo {
  path : string;
  name : string;
  fi_size_bytes : nat;
  loc : nat;
  symbols : list (string * list string);
  imports : list string;
  has_tests : bool
}.

(** The Module Record while the scan accumulates it: [dependencies] is a
    Python set. *)
Record module_acc := ModuleAcc {
  acc_name : string;
  acc_files : list file_info;
  acc_total_loc : nat;
  acc_key_symbols : list string;
  acc_dependencies : gset string
}.

(** The Module Record [scan_project] returns. *)
Record module_record := ModuleRecord {
  mr_name : string;
  files : list file_info;
  total_loc : nat;
  key_symbols : list string;
  dependencies : list string
}.

(** The per-module document written by [save_module_data]. *)
Record module_summary := ModuleSummary {
  ms_name : string;
  ms_purpose : string;
  ms_total_files : nat;
  ms_total_loc : nat;
  ms_key_symbols : list string;
  ms_dependencies : list string;
  ms_files : list string
}.

Definition string_in (x : string) (l : list string) : bool :=
  existsb (String.eqb x) l.

(** [list(set(l))]: the order Python gives is unspecified; the model keeps
    the order [elements] gives. *)
Definition list_set (l : list string) : list string :=
  elements (list_to_set l : gset string).

Section WithExtractor.

(** The regular-expression symbol and import extraction, [extract_symbols]
    and [extract_imports], is lexical matching that no property below
    depends on; the scan is parametrised by it. *)
Variable extract_symbols : string -> list (string * list string).
Variable extract_imports : string -> list string.

Variable cfg : config.

(** [str(file_path)] *)
Definition path_str (f : source_file) : string :=
  project_root cfg +:+ "/" +:+ root_path cfg +:+ "/" +:+ join "/" (rel_parts f).

(** [str(file_path.relative_to(self.project_root))] *)
Definition relative_path_str (f : source_file) : string :=
  root_path cfg +:+ "/" +:+ join "/" (rel_parts f).

Definition should_ignore (f : source_file) : bool :=
  existsb (fun pattern => contains (remove_char "*"%char pattern) (path_str f))
          (ignore_patterns cfg)
  || (1024 * max_file_size_kb cfg <? size_bytes f).

(** The naive line count: lines that are not blank and do not start with
    [//] once stripped. *)
Definition count_loc (text : string) : nat :=
  length (List.filter
            (fun line => negb (is_empty (strip line))
                         && negb (startswith "//" (strip line)))
            (split_lines text)).

Definition analyze_file (f : source_file) : option file_info :=
  match content f with
  | None => None
  | Some text =>
      let syms := extract_symbols text in
      let imps := extract_imports text in
      Some {| path := relative_path_str f;
              name := List.last (rel_parts f) "";
              fi_size_bytes := size_bytes f;
              loc := count_loc text;
              symbols := syms;
              imports := imps;
              has_tests := string_in "XCTest" imps || contains "@Test" text |}
  end.

Definition identify_module (f : source_file) : string :=
  match rel_parts f with
  | module_name :: _ => if string_in module_name (modules cfg) then module_name else "Misc"
  | [] => "Misc"
  end.

(** [symbol_type[:-1]] *)
Fixpoint drop_last (s : string) : string :=
  match s with
  | EmptyString => EmptyString
  | String c EmptyString => EmptyString
  | String c t => String c (drop_last t)
  end.

(** The entries [f"{symbol_type[:-1]}:{symbol}"] of one file, in the order
    the nested loops append them. *)
Definition symbol_entries (info : file_info) : list string :=
  symbols info ≫= fun '(symbol_type, names) =>
    (fun symbol => drop_last symbol_type +:+ ":" +:+ symbol) <$> names.

(** The symbol lookup entries of one file: every symbol is mapped to the
    file's path; a later writer replaces an earlier one. *)
Definition record_symbols (info : file_info)
    (all_symbols : gmap string string) : gmap string string :=
  foldl (fun acc symbol => <[symbol := path info]> acc) all_symbols
        (symbols info ≫= snd).

Definition new_module (module_name : string) : module_acc :=
  ModuleAcc module_name [] 0 [] ∅.

(** The body of the [for file_path in swift_files] loop. *)
Definition scan_step (st : gmap string module_acc * gmap string string)
    (f : source_file) : gmap string module_acc * gmap string string :=
  if should_ignore f then st
  else match analyze_file f with
       | None => st
       | Some info =>
           let module_name := identify_module f in
           let m := default (new_module module_name) (st.1 !! module_name) in
           let m' := {| acc_name := acc_name m;
                        acc_files := acc_files m ++ [info];
                        acc_total_loc := acc_total_loc m + loc info;
                        acc_key_symbols := acc_key_symbols m ++ symbol_entries info;
                        acc_dependencies := acc_dependencies m ∪ list_to_set (imports info) |} in
           (<[module_name := m']> st.1, record_symbols info st.2)
       end.

(** The conversion of the sets to lists that ends [scan_project]. *)
Definition finalize (m : module_acc) : module_record :=
  {| mr_name := acc_name m;
     files := acc_files m;
     total_loc := acc_total_loc m;
     key_symbols := take 20 (list_set (acc_key_symbols m));
     dependencies := elements (acc_dependencies m) |}.

Definition scan_project (swift_files : list source_file)
    : gmap string module_record * gmap string string :=
  let st := foldl scan_step (∅, ∅) swift_files in
  (finalize <$> st.1, st.2).

Definition get_module_purpose (module_name : string) : string :=
  default "Miscellaneous files"
    (list_to_map (M := gmap string string)
       [("Core", "TCA foundation - State, Actions, Reducers, Store, ViewConfigs");
        ("Features", "UI features - Onboarding, Auth, Settings, Home, Profile");
        ("Services", "Business logic và external services integrations");
        ("Theme", "UI theming - Colors, Typography, Spacing, Component styles");
        ("Network", "API clients và networking layer");
        ("Storage", "Data persistence - UserDefaults, Keychain, FileStorage");
        ("Monetization", "IAP, AdMob, Revenue tracking, Analytics");
        ("Utilities", "Helper functions, extensions, utilities");
        ("Misc", "Other files")] !! module_name).

(** Sorting module names is only needed for the [dependencies] field of the
    summary, [sorted(list(set(...)))[:10]]; the order of a sorted list of
    strings is by code point. *)
Definition string_leb (a b : string) : bool :=
  match String.compare a b with Gt => false | _ => true end.

Fixpoint insert_sorted (x : string) (l : list string) : list string :=
  match l with
  | [] => [x]
  | y :: r => if string_leb x y then x :: l else y :: insert_sorted x r
  end.

Definition sorted_strings (l : list string) : list string :=
  foldr insert_sorted [] l.

(** The summary [save_module_data] writes to [modules/<name>.json]. *)
Definition module_summary_of (module_name : string) (m : module_record) : module_summary :=
  {| ms_name := module_name;
     ms_purpose := get_module_purpose module_name;
     ms_total_files := length (files m);
     ms_total_loc := total_loc m;
     ms_key_symbols := take 10 (key_symbols m);
     ms_dependencies := take 10 (sorted_strings (list_set (dependencies m)));
     ms_files := take 20 (name <$> files m) |}.

(** The content of the [modules] directory after [save_module_data], given
    an empty directory before. *)
Definition save_module_data (mods : gmap string module_record) : gmap string module_summary :=
  map_imap (fun module_name m => Some (module_summary_of module_name m)) mods.

End WithExtractor.
End Scanner.


(** ** generate_claude_context.py *)

Module ContextGenerator.
Import PyStr.
Export RulesIndexer(rule, Rule, text, category, priority, source_file, Priority,
                    critical, high, medium, low, priority_name).
Export Scanner(module_summary, ModuleSummary, ms_name, ms_purpose, ms_total_files,
               ms_total_loc, ms_key_symbols, ms_dependencies, ms_files).

(** *** Relevance scoring *)

Definition module_keywords : list (string * list string) :=
  [("Core", ["state"; "reducer"; "action"; "store"; "tca"; "architecture"; "config"]);
   ("Features", ["screen"; "view"; "feature"; "user interface"; "ui"; "page";
                 "onboarding"; "auth"; "settings"; "home"; "profile"]);
   ("Services", ["service"; "api"; "business"; "logic"; "manager"; "firebase"; "analytics"]);
   ("Theme", ["theme"; "color"; "style"; "dark mode"; "typography"; "design"; "spacing"]);
   ("Network", ["network"; "api"; "request"; "http"; "endpoint"; "fetch"; "moya"]);
   ("Storage", ["storage"; "database"; "cache"; "persist"; "save"; "keychain"; "userdefaults"]);
   ("Monetization", ["iap"; "purchase"; "subscription"; "admob"; "ads"; "revenue"; "appsflyer"]);
   ("Utilities", ["extension"; "helper"; "utility"; "util"; "common"])].

(** A relevance map: module name and score, in insertion order. *)
Abbreviation scores := (list (string * Q)).

(** [sum(1 for keyword in keywords if keyword in task_lower)] *)
Definition hits (task_lower : string) (keywords : list string) : nat :=
  length (List.filter (fun keyword => contains keyword task_lower) keywords).

(** [score / len(keywords)] *)
Definition fraction (score : nat) (keywords : list string) : Q :=
  (inject_Z (Z.of_nat score) / inject_Z (Z.of_nat (length keywords)))%Q.

(** The first loop of [analyze_task] over a keyword table. *)
Definition raw_scores (table : list (string * list string)) (task_lower : string) : scores :=
  omap (fun '(module, keywords) =>
          let score := hits task_lower keywords in
          if 0 <? score then Some (module, fraction score keywords) else None)
       table.

(** [max(values)] of a list that starts with [v]: a later element replaces
    the running maximum only when it is strictly greater. *)
Definition max_from (v : Q) (values : list Q) : Q :=
  foldl (fun best x => if Qle_bool x best then best else x) v values.

Definition max_value (values : list Q) : Q :=
  match values with
  | [] => 0%Q
  | v :: rest => max_from v rest
  end.

(** [{k: v/max_score for k, v in relevance_scores.items()}] *)
Definition normalize (relevance_scores : scores) : scores :=
  let max_score := max_value (relevance_scores.*2) in
  (fun '(k, v) => (k, (v / max_score)%Q)) <$> relevance_scores.

(** [k in relevance_scores] *)
Definition has_key (k : string) (relevance_scores : scores) : bool :=
  existsb (fun kv => String.eqb k kv.1) relevance_scores.

(** [relevance_scores[k]], when the key is there *)
Definition get_score (k : string) (relevance_scores : scores) : option Q :=
  snd <$> List.find (fun kv => String.eqb k kv.1) relevance_scores.

Definition core_default : Q := (3 # 10)%Q.

Definition analyze_over (table : list (string * list string)) (task_lower : string) : scores :=
  let relevance_scores := raw_scores table task_lower in
  let relevance_scores :=
    if negb (bool_decide (relevance_scores = [])) then normalize relevance_scores
    else relevance_scores in
  if negb (bool_decide (relevance_scores = [])) && negb (has_key "Core" relevance_scores)
  then relevance_scores ++ [("Core", core_default)]
  else relevance_scores.

Definition analyze_task (task_description : string) : scores :=
  analyze_over module_keywords (lower task_description).

(** *** Ranking *)

(** [sorted(..., key=lambda x: x[1], reverse=True)] is a stable sort by
    descending score: among equal scores the insertion order is kept. *)
Fixpoint insert_desc (x : string * Q) (l : scores) : scores :=
  match l with
  | [] => [x]
  | y :: r => if Qle_bool y.2 x.2 then x :: l else y :: insert_desc x r
  end.

Definition sorted_desc (l : scores) : scores := foldr insert_desc [] l.

Definition fallback_scores : scores := [("Core", 1%Q); ("Features", (1 # 2)%Q)].

(** The ranked list [relevant_modules] of [generate_context]. *)
Definition relevant_modules (task_description : string) : scores :=
  let relevance_scores := analyze_task task_description in
  let relevance_scores :=
    if bool_decide (relevance_scores = []) then fallback_scores else relevance_scores in
  sorted_desc relevance_scores.

(** *** Formatting *)

(** [str(n)] for a natural number *)
Definition decimal (n : nat) : string := NilEmpty.string_of_uint (Nat.to_uint n).

(** The digits with a comma before every group of three counted from the
    right. *)
Fixpoint group_digits (digits : string) : string :=
  match digits with
  | EmptyString => EmptyString
  | String c t =>
      String c (if (0 <? String.length t) && (String.length t mod 3 =? 0)
                then "," +:+ group_digits t else group_digits t)
  end.

(** [f"{n:,}"] *)
Definition decimal_commas (n : nat) : string := group_digits (decimal n).

(** Rounding to the nearest integer, ties to even. *)
Definition round_half_even (q : Q) : Z :=
  let n := Qnum q in
  let d := Z.pos (Qden q) in
  let f := (n / d)%Z in
  let r2 := (2 * (n mod d))%Z in
  if (r2 <? d)%Z then f
  else if (d <? r2)%Z then (f + 1)%Z
  else if Z.even f then f else (f + 1)%Z.

(** [f"{score:.0%}"], on the rational that idealises the float *)
Definition percent (score : Q) : string :=
  NilEmpty.string_of_int (Z.to_int (round_half_even (score * 100)%Q)) +:+ "%".

(** [self.estimate_tokens] *)
Definition estimate_tokens (text : string) : nat := len text / 4.

(** *** The persisted documents and the configuration *)

(** [quick_reference.json] as [create_quick_reference] writes it. *)
Record quick_reference := QuickReference {
  top_rules : list string;
  naming_conventions : list string;
  architecture_rules : list string;
  testing_requirements : list string
}.

(** What [generate_context] reads: the token budget of the configuration,
    the documents under [.context/], and the clock.  A file that does not
    exist is [None] or an absent key. *)
Record environment := Environment {
  max_tokens : nat;
  modules_dir : gmap string module_summary;
  rules_file : option (gmap string (list rule));
  quick_reference_file : option quick_reference;
  now : string
}.

(** [load_module_data]: the empty dictionary of the source is [None]. *)
Definition load_module_data (env : environment) (module_name : string) : option module_summary :=
  modules_dir env !! module_name.

(** [load_rules] *)
Definition load_rules (env : environment) (priority_levels : list string) : list rule :=
  match rules_file env with
  | None => []
  | Some all_rules =>
      priority_levels ≫= fun p =>
        match all_rules !! p with
        | Some bucket => take 5 bucket
        | None => []
        end
  end.

(** The comparisons of the running estimate with a share of the budget.
    For an integer budget the float products [max_tokens * 0.6],
    [max_tokens * 0.85] and [max_tokens * 0.9] compare with an integer as
    the exact products do. *)
Definition over_60 (env : environment) (token_count : nat) : bool :=
  3 * max_tokens env <? 5 * token_count.
Definition over_85 (env : environment) (token_count : nat) : bool :=
  17 * max_tokens env <? 20 * token_count.
Definition under_90 (env : environment) (token_count : nat) : bool :=
  10 * token_count <? 9 * max_tokens env.

(** *** The sections of the digest *)

Definition header (task_description timestamp : string) : string :=
  "# 🎯 CONTEXT FOR TASK

**Task**: " +:+ task_description +:+ "

**Generated**: " +:+ timestamp +:+ "

---

## 📱 Project Overview

- **Name**: ios-template
- **Architecture**: TCA (The Composable Architecture) + Parameterized Component Pattern
- **UI Framework**: SwiftUI
- **iOS Target**: 16.0+
- **Language**: Swift 5.9+

### Key Architectural Pattern: Parameterized Component

This project uses a unique pattern where:
- **Components** = View + Config
- Views are pure rendering (NO hardcoded values)
- Configs contain all customization (data, callbacks, styling)
- Enables one template for multiple apps without forking

Example:
```swift
// Config
struct OnboardingConfig {
    let pages: [Page]
    let onComplete: () -> Void
}

// View
struct OnboardingView: View {
    let config: OnboardingConfig
    // Uses config for everything
}
```

---

".

Definition modules_heading : string := "## 📦 Relevant Modules

".

Definition or_none (s : string) : string := if is_empty s then "None" else s.

Definition module_section (module_name : string) (score : Q) (module_data : module_summary)
    : string :=
  "### " +:+ module_name +:+ " (Relevance: " +:+ percent score +:+ ")

**Purpose**: " +:+ ms_purpose module_data +:+ "

**Statistics**:
- Files: " +:+ decimal (ms_total_files module_data) +:+ "
- Lines of Code: " +:+ decimal_commas (ms_total_loc module_data) +:+ "

**Key Symbols**:
" +:+ join ", " (take 8 (ms_key_symbols module_data)) +:+ "

**Dependencies**: " +:+ or_none (join ", " (take 5 (ms_dependencies module_data))) +:+ "

**Main Files**:
" +:+ join (String LF EmptyString) ((fun f => "- " +:+ f) <$> take 6 (ms_files module_data)) +:+ "

".

Definition rules_heading : string := "
---

## ⚠️ CRITICAL RULES

".

Definition rule_line (i : nat) (r : rule) : string :=
  decimal i +:+ ". **[" +:+ upper (priority_name (priority r)) +:+ "]** " +:+ text r +:+ "

".

Definition quick_reference_heading : string := "
---

## ⚡ Quick Reference

".

Definition footer (task_description : string) (token_count : nat) : string :=
  "

---

## 💡 Instructions for Implementation

**Your Task**: " +:+ task_description +:+ "

**Follow These Guidelines**:

1. **TCA Architecture**: Use State → Action → Reducer → Effect pattern
2. **Parameterized Components**: NO hardcoded values in Views
   - Create Config object in `Core/ViewConfigs/`
   - Implement View in `Features/`
3. **SwiftUI Best Practices**: Use @ObservableState, proper state management
4. **Error Handling**: Add appropriate error handling and validation
5. **Testing**: Consider test coverage (target: 80%+)

**File Organization**:
- Configs → `Sources/iOSTemplate/Core/ViewConfigs/`
- Views → `Sources/iOSTemplate/Features/`
- Reducers → `Sources/iOSTemplate/Core/`
- Services → `Sources/iOSTemplate/Services/`

**Estimated Context Size**: ~" +:+ decimal_commas token_count +:+ " tokens

---

*Context generated by Context Hub v1.0*
".

(** *** Assembly *)

(** The loop [for module_name, score in relevant_modules[:5]], from the
    running estimate [token_count]: the parts it appends and the estimate
    it ends with. *)
Fixpoint modules_loop (env : environment) (ranked : scores) (token_count : nat)
    : list string * nat :=
  match ranked with
  | [] => ([], token_count)
  | (module_name, score) :: rest =>
      if over_60 env token_count then ([], token_count)
      else match load_module_data env module_name with
           | Some module_data =>
               let module_section := module_section module_name score module_data in
               let '(parts, final) :=
                 modules_loop env rest (token_count + estimate_tokens module_section) in
               (module_section :: parts, final)
           | None => modules_loop env rest token_count
           end
  end.

(** The loop [for i, rule in enumerate(rules[:12], 1)]. *)
Fixpoint rules_loop (env : environment) (i : nat) (rules : list rule) (token_count : nat)
    : list string * nat :=
  match rules with
  | [] => ([], token_count)
  | r :: rest =>
      if over_85 env token_count then ([], token_count)
      else
        let rule_text := rule_line i r in
        let '(parts, final) :=
          rules_loop env (S i) rest (token_count + estimate_tokens rule_text) in
        (rule_text :: parts, final)
  end.

(** The rules the rules section draws from: [rules[:12]]. *)
Definition selected_rules (env : environment) : list rule :=
  take 12 (load_rules env ["critical"; "high"]).

(** The parts the quick-reference step appends. *)
Definition quick_reference_parts (env : environment) (token_count : nat) : list string :=
  match quick_reference_file env with
  | Some quick_ref =>
      if under_90 env token_count then
        quick_reference_heading ::
        (if negb (bool_decide (top_rules quick_ref = [])) then
           "**Most Important Rules**:
" :: ((fun r => "- " +:+ r +:+ String LF EmptyString) <$> take 5 (top_rules quick_ref))
         else [])
      else []
  | None => []
  end.

(** The state of the assembly at its observable points. *)
Record assembly := Assembly {
  module_parts : list string;
  tokens_before_rules : nat;
  rule_parts : list string;
  tokens_after_rules : nat;
  context_parts : list string
}.

(** The assembly over a given ranked list. *)
Definition assemble (env : environment) (task_description : string) (ranked : scores)
    : assembly :=
  let head := header task_description (now env) in
  let token_count := estimate_tokens head in
  let '(mparts, token_count) := modules_loop env (take 5 ranked) token_count in
  let before_rules := token_count in
  let '(rparts, token_count) := rules_loop env 1 (selected_rules env) token_count in
  {| module_parts := mparts;
     tokens_before_rules := before_rules;
     rule_parts := rparts;
     tokens_after_rules := token_count;
     context_parts :=
       [head; modules_heading] ++ mparts ++ [rules_heading] ++ rparts
       ++ quick_reference_parts env token_count
       ++ [footer task_description token_count] |}.

Definition assembly_of (env : environment) (task_description : string) : assembly :=
  assemble env task_description (relevant_modules task_description).

Definition generate_context (env : environment) (task_description : string) : string :=
  concat (context_parts (assembly_of env task_description)).

End ContextGenerator.

(** ** master_indexer.py *)

Module MasterIndexer.
Import PyStr.

(** What a call that may raise comes to. *)
Inductive outcome (A : Type) :=
| Raised (message : string)
| Returned (a : A).
Arguments Raised {A} message.
Arguments Returned {A} a.

(** [self.stats], without the start time. *)
Record stats := Stats {
  modules_indexed : nat;
  rules_indexed : nat;
  files_processed : nat;
  errors : list string
}.

(** The [stats] entry of the master index. *)
Record index_stats := IndexStats {
  is_modules_indexed : nat;
  is_files_processed : nat;
  is_rules_indexed : nat;
  is_indexing_duration : string
}.

(** [index.json]: the keys the scanner wrote ([base], kept as they are) and
    the keys the orchestrator sets. *)
Record index_doc := IndexDoc {
  base : list (string * string);
  last_full_index : option string;
  index_stats_entry : option index_stats;
  index_errors : option (list string)
}.

(** The surroundings of one run: what the requirement checks find, what the
    two stages come to, and the state of [index.json] when the index is
    updated. *)
Record world := World {
  context_dir_exists : bool;
  config_exists : bool;
  (** reading the configuration and testing the source directory *)
  source_dir_check : outcome bool;
  (** [ProjectScanner().run()]: the number of files of every module *)
  scanner_run : outcome (list (string * nat));
  (** [RulesIndexer().run()]: the number of rules of every priority *)
  rules_indexer_run : outcome (list (string * nat));
  index_before : option index_doc;
  (** an exception raised while [index.json] is read or written *)
  index_io : option string;
  (** the clock and the paths, as the messages render them *)
  start_time : string;
  timestamp : string;
  duration : string;
  duration_seconds : string;
  project_root : string;
  source_path : string
}.

(** The state the orchestrator threads: its statistics, the lines printed,
    and [index.json]. *)
Record state := State {
  st_stats : stats;
  printed : list string;
  index_file : option index_doc
}.

Definition print (line : string) (st : state) : state :=
  State (st_stats st) (printed st ++ [line]) (index_file st).

Definition set_stats (f : stats -> stats) (st : state) : state :=
  State (f (st_stats st)) (printed st) (index_file st).

Definition add_error (msg : string) : stats -> stats :=
  fun s => Stats (modules_indexed s) (rules_indexed s) (files_processed s) (errors s ++ [msg]).

Definition rule_dashes : string := "--------------------------------------------------".
Definition rule_equals : string := "============================================================".

Section Run.
Variable w : world.

Definition check_requirements (st : state) : bool * state :=
  let st := print "🔍 Checking requirements..." st in
  if negb (context_dir_exists w) then
    (false, print "❌ .context directory not found. Run setup first!" st)
  else if negb (config_exists w) then
    (false, print "❌ config.json not found" st)
  else match source_dir_check w with
       | Returned false =>
           (false, print "   Please update 'root_path' in config.json"
                     (print ("❌ Source directory not found: " +:+ source_path w) st))
       | Raised e => (false, print ("❌ Error reading config: " +:+ e) st)
       | Returned true => (true, print "✅ All requirements met" st)
       end.

Definition run_scanner (st : state) : bool * state :=
  let st := print rule_dashes (print "
📦 Running Project Scanner..." st) in
  match scanner_run w with
  | Returned module_files =>
      let st := set_stats (fun s => Stats (length module_files) (rules_indexed s)
                                          (sum_list (module_files.*2)) (errors s)) st in
      (true, print ("✅ Scanner completed: " +:+ ContextGenerator.decimal (length module_files)
                    +:+ " modules") st)
  | Raised e =>
      let error_msg := "Scanner failed: " +:+ e in
      (false, set_stats (add_error error_msg) (print ("❌ " +:+ error_msg) st))
  end.

Definition run_rules_indexer (st : state) : bool * state :=
  let st := print rule_dashes (print "
📋 Running Rules Indexer..." st) in
  match rules_indexer_run w with
  | Returned rule_counts =>
      let total_rules := sum_list (rule_counts.*2) in
      let st := set_stats (fun s => Stats (modules_indexed s) total_rules
                                          (files_processed s) (errors s)) st in
      (true, print ("✅ Rules indexer completed: " +:+ ContextGenerator.decimal total_rules
                    +:+ " rules") st)
  | Raised e =>
      let error_msg := "Rules indexer failed: " +:+ e in
      (true, set_stats (add_error error_msg) (print ("⚠️ " +:+ error_msg) st))
  end.

Definition update_master_index (st : state) : state :=
  let st := print "
📝 Updating master index..." st in
  match index_io w with
  | Some e => print ("⚠️ Failed to update master index: " +:+ e) st
  | None =>
      let index := default (IndexDoc [] None None None) (index_before w) in
      let s := st_stats st in
      let index :=
        IndexDoc (base index) (Some (timestamp w))
                 (Some (IndexStats (modules_indexed s) (files_processed s)
                                   (rules_indexed s) (duration w)))
                 (if negb (bool_decide (errors s = [])) then Some (errors s)
                  else index_errors index) in
      print "✅ Master index updated" (State s (printed st) (Some index))
  end.

Definition output_files : list string :=
  [".context/index.json"; ".context/rules.json"; ".context/patterns.json";
   ".context/quick_reference.json"; ".context/modules/*.json";
   ".context/cache/symbols.json"].

Definition summary_lines (s : stats) : list string :=
  ["
" +:+ rule_equals; "📊 INDEXING SUMMARY"; rule_equals;
   "✅ Modules indexed: " +:+ ContextGenerator.decimal (modules_indexed s);
   "✅ Files processed: " +:+ ContextGenerator.decimal (files_processed s);
   "✅ Rules indexed: " +:+ ContextGenerator.decimal (rules_indexed s);
   "⏱️ Duration: " +:+ duration_seconds w +:+ " seconds"]
  ++ (if negb (bool_decide (errors s = [])) then
        ("
⚠️ Errors encountered: " +:+ ContextGenerator.decimal (length (errors s)))
        :: ((fun error => "  - " +:+ error) <$> errors s)
      else ["
🎉 No errors - indexing completed successfully!"])
  ++ ["
📁 Output files created:"]
  ++ ((fun file => "  ✅ " +:+ file) <$> output_files)
  ++ ["
💡 Next steps:"; "  1. Generate context cho Claude:";
      "     python .context/scripts/generate_claude_context.py 'your task'";
      "
  2. Xem các files đã tạo:"; "     ls -la .context/modules/"].

Definition generate_summary (st : state) : state :=
  foldl (fun st line => print line st) st (summary_lines (st_stats st)).

Definition initial_state : state := State (Stats 0 0 0 []) [] None.

Definition banner (st : state) : state :=
  foldl (fun st line => print line st) st
    ["🚀 MASTER INDEXER STARTING"; rule_equals; "📅 Time: " +:+ start_time w;
     "📁 Project: " +:+ project_root w; rule_equals].

(** [MasterIndexer.run] *)
Definition run : bool * state :=
  let st := banner initial_state in
  let '(ok, st) := check_requirements st in
  if negb ok then (false, print "
❌ Requirements check failed. Exiting..." st)
  else
    let success := true in
    let '(ok, st) := run_scanner st in
    if negb ok then (false, print "
❌ Critical error in scanner. Stopping..." st)
    else
      let '(_, st) := run_rules_indexer st in
      let st := update_master_index st in
      let st := generate_summary st in
      (success, st).

(** The exit status [main] passes to [sys.exit]. *)
Definition exit_code : nat := if run.1 then 0 else 1.

End Run.
End MasterIndexer.


(** * Vocabulary of the statements, and sample inputs *)

Module RulesIndexerSpec.
Import PyStr RulesIndexer.

(** One of the six marker substrings occurs in the line. *)
Definition has_marker (line : string) : bool :=
  contains "CRITICAL" line || contains "MUST" line
  || contains "IMPORTANT" line || contains "SHOULD" line
  || contains "OPTIONAL" line || contains "NICE TO HAVE" line.

(** The lines the loop skips before it looks for markers: blank lines and
    header lines. *)
Definition skipped (raw : string) : bool :=
  is_empty (strip raw) || startswith "##" (strip raw).

(** The reading of the list-item rule in the specification: only the
    marker that opens the line is removed, then the text is trimmed. *)
Definition leading_marker_removed (line : string) : string :=
  match marker_match true line with
  | Some n => strip (drop_chars n line)
  | None => line
  end.

(** A line that cannot change the priority: skipped, or free of markers. *)
Definition quiet (raw : string) : bool :=
  skipped raw || negb (has_marker (strip raw)).

(** A list item the loop captures: once stripped it opens with a list
    marker, and what the substitution leaves of it, trimmed, is longer
    than the threshold. *)
Definition long_item (raw : string) : bool :=
  let line := strip raw in
  re_match_marker line && (min_length <? len (strip (re_sub_marker line))).

(** Such a list item with none of the six markers in it. *)
Definition plain_item (raw : string) : bool :=
  long_item raw && negb (has_marker (strip raw)).

(** A content with a CRITICAL line, three list items, an OPTIONAL line and
    one list item. *)
Definition marked_rules_text : string := "CRITICAL
- Never hardcode values in views
- Keep reducers free of side effects
- Route every effect through a client
OPTIONAL (may be skipped)
- Prefer trailing closures where short".

End RulesIndexerSpec.

Module ScannerSpec.
Import PyStr Scanner.

Section Scan.
Variable extract_symbols : string -> list (string * list string).
Variable extract_imports : string -> list string.
Variable cfg : config.

(** The File Record of a file that is analysed: not ignored and read
    without error. *)
Definition analysis (f : source_file) : option (source_file * file_info) :=
  if should_ignore cfg f then None
  else pair f <$> analyze_file extract_symbols extract_imports cfg f.

(** The analysed files of a tree with their records, in scan order. *)
Definition analyzed (tree : list source_file) : list (source_file * file_info) :=
  omap analysis tree.

(** The records of the analysed files that [identify_module] sends to [m]. *)
Definition files_of (m : string) (tree : list source_file) : list file_info :=
  snd <$> filter (fun fi => identify_module cfg fi.1 = m) (analyzed tree).

(** The accumulated Module Records account for the analysed files. *)
Definition accounted (mods : gmap string module_acc) (tree : list source_file) : Prop :=
  forall m,
    match mods !! m with
    | None => files_of m tree = []
    | Some acc => acc_files acc = files_of m tree
                  /\ acc_total_loc acc = sum_list (loc <$> acc_files acc)
    end.

End Scan.

Definition sample_config : config :=
  Config "/work/app" "Sources/App" ["Core"; "Features"] ["*Tests*"] 500.

Definition sample_tree : list source_file :=
  [SourceFile ["Core"; "Store.swift"] 120 (Some "import Foundation
// the store
struct Store {}
");
   SourceFile ["Legacy"; "Old.swift"] 40 (Some "let x = 1
let y = 2");
   SourceFile ["Core"; "Broken.swift"] 10 None;
   SourceFile ["Core"; "Action.swift"] 30 (Some "enum Action {}")].

Definition no_symbols (text : string) : list (string * list string) := [].
Definition no_imports (text : string) : list string := [].

End ScannerSpec.

Module ContextGeneratorSpec.
Import PyStr ContextGenerator.

(** The numbered lines of a list of rules, as the rules loop formats them
    when nothing stops it. *)
Fixpoint rule_lines (i : nat) (rules : list rule) : list string :=
  match rules with
  | [] => []
  | r :: rest => rule_line i r :: rule_lines (S i) rest
  end.

(** The bucket of a priority in the persisted rules document, cut as
    [load_rules] cuts it. *)
Definition top_five (all_rules : gmap string (list rule)) (p : string) : list rule :=
  take 5 (default [] (all_rules !! p)).

(** A task description in which no configured keyword occurs. *)
Definition no_keyword_in (task_lower : string) : Prop :=
  forall m kws kw, (m, kws) ∈ module_keywords -> kw ∈ kws -> contains kw task_lower = false.

Definition no_keyword_inb (task_lower : string) : bool :=
  forallb (fun entry => forallb (fun kw => negb (contains kw task_lower)) entry.2)
          module_keywords.

(** A document of the kind [save_module_data] writes. *)
Definition features_doc : module_summary :=
  ModuleSummary "Features" "UI features - Onboarding, Auth, Settings, Home, Profile" 2 180
    ["struct:SettingsView"; "struct:HomeView"] ["SwiftUI"; "ComposableArchitecture"]
    ["SettingsView.swift"; "HomeView.swift"].

(** A budget of 400 units and one module document. *)
Definition small_budget : environment :=
  Environment 400 {[ "Features" := features_doc ]} None None "2026-01-05 09:00".

Definition dark_mode_task : string := "Add dark mode toggle to Settings screen".

(** The combined critical and high rules of the persisted rules document. *)
Definition combined (all_rules : gmap string (list rule)) : list rule :=
  default [] (all_rules !! "critical") ++ default [] (all_rules !! "high").

Definition sample_rule (p : Priority) (n : nat) : rule :=
  Rule ("Keep rule number " +:+ decimal n +:+ " of this priority")
       "general" p (Some "conventions.md").

(** Six critical and six high rules. *)
Definition twelve_rules : gmap string (list rule) :=
  {[ "critical" := sample_rule critical <$> seq 1 6;
     "high" := sample_rule high <$> seq 1 6;
     "medium" := [];
     "low" := [] ]}.

Definition large_budget : environment :=
  Environment 4000 ∅ (Some twelve_rules) None "2026-01-05 09:00".

Definition typo_task : string := "Fix typo in README".

(** No proper, non-empty end of [p] starts [b]: an occurrence of [p] in
    [a +:+ b] cannot straddle the boundary. *)
Definition cross_free (p b : string) : bool :=
  forallb (fun i => negb (String.prefix (drop_chars i p) b))
          (seq 1 (String.length p - 1)).

Definition all_keywords : list string := module_keywords ≫= snd.

(** What is checked of the table by evaluation: keywords are lowercase
    and occur in themselves; appended after a space, a keyword creates no
    occurrence of another keyword across the space. *)
Definition table_check : bool :=
  forallb (fun k =>
    String.eqb (lower k) k && contains k k
    && forallb (fun p =>
         cross_free p (" " +:+ k)
         && Bool.eqb (contains p (" " +:+ k)) (contains p k)) all_keywords)
    all_keywords.

(** Checked by evaluation: a keyword of one module has, among the keywords
    of another module, no substring at all, or itself as the only one, and
    then the two keyword sets have the same size. *)
Definition overlap_check : bool :=
  forallb (fun entry =>
    forallb (fun k =>
      forallb (fun other =>
        String.eqb other.1 entry.1
        || bool_decide (List.filter (fun p => contains p k) other.2 = [])
        || (bool_decide (List.filter (fun p => contains p k) other.2 = [k])
            && (length other.2 =? length entry.2)))
        module_keywords) entry.2) module_keywords.

(** The score read off the returned map; a module that is absent counts
    as zero. *)
Definition score_of (m : string) (relevance_scores : scores) : Q :=
  default 0%Q (get_score m relevance_scores).

End ContextGeneratorSpec.

Module MasterIndexerSpec.
Import PyStr MasterIndexer.

Definition failing_rules_world : world :=
  World true true (Returned true) (Returned [("Core", 3); ("Misc", 1)])
        (Raised "No such file or directory: '.context/config.json'")
        None None "2026-01-05 09:00:00" "2026-01-05T09:00:01" "0:00:01" "1.00"
        "/work/app" "/work/app/Sources".

(** The same run when [index.json] cannot be written. *)
Definition failing_rules_read_only_world : world :=
  World true true (Returned true) (Returned [("Core", 3); ("Misc", 1)])
        (Raised "No such file or directory: '.context/config.json'")
        None (Some "Read-only file system: '.context/index.json'")
        "2026-01-05 09:00:00" "2026-01-05T09:00:01" "0:00:01" "1.00"
        "/work/app" "/work/app/Sources".

End MasterIndexerSpec.

(** * Properties *)

(** Membership in a list that is written out. *)
Ltac in_list := repeat first [apply list_elem_of_here | apply list_elem_of_further].

(** ** The rule extractor *)

Module RulesIndexerFacts.
Import PyStr RulesIndexer RulesIndexerSpec.

(** The substitution, read as a search from left to right: where the
    pattern matches, the match is dropped and the search goes on behind it;
    where it does not, one character is kept. *)
Lemma re_sub_from_skip b k s :
  re_sub_from b k s = re_sub_from (b && (k =? 0)) 0 (drop_chars k s).
Proof.
  revert b s. induction k as [|k IH]; intros b s.
  - destruct s; by rewrite andb_true_r.
  - destruct s as [|c t]; [done|]. cbn [re_sub_from drop_chars].
    rewrite IH. cbn. by rewrite andb_false_r.
Qed.

Lemma re_sub_from_match b s k :
  marker_match b s = Some (S k) ->
  re_sub_from b 0 s = re_sub_from false 0 (drop_chars (S k) s).
Proof.
  destruct s as [|c t]; [by destruct b|]. intros H.
  cbn [re_sub_from]. rewrite H. cbn [drop_chars]. by rewrite re_sub_from_skip.
Qed.

Lemma re_sub_from_no_match b c t :
  marker_match b (String c t) = None ->
  re_sub_from b 0 (String c t) = String c (re_sub_from false 0 t).
Proof. intros H. cbn [re_sub_from]. by rewrite H. Qed.

Lemma detect_priority_no_marker line p :
  has_marker line = false -> detect_priority line p = p.
Proof.
  unfold has_marker, detect_priority. intros H.
  repeat (apply orb_false_elim in H as [H ?]).
  repeat match goal with Hc : contains _ _ = false |- _ => rewrite Hc; clear Hc end.
  reflexivity.
Qed.

Lemma step_skipped st raw :
  skipped raw = true ->
  current_priority (step st raw) = current_priority st /\ rules (step st raw) = rules st.
Proof.
  unfold skipped, step. intros H.
  destruct (is_empty (strip raw)); [done|].
  simpl in H. by rewrite H.
Qed.

Lemma step_priority st raw :
  skipped raw = false ->
  current_priority (step st raw) = detect_priority (strip raw) (current_priority st).
Proof.
  unfold skipped, step. intros H. apply orb_false_elim in H as [-> ->].
  by destruct (capture _ _ _).
Qed.

Lemma capture_priority cat p line r : capture cat p line = Some r -> priority r = p.
Proof.
  unfold capture, item_rule, code_rule.
  repeat case_match; intros [= <-]; reflexivity.
Qed.

(** What one line adds to the rules, and under which priority. *)
Lemma step_rules st raw :
  exists new, rules (step st raw) = rules st ++ new
    /\ forall r, r ∈ new -> priority r = current_priority (step st raw).
Proof.
  unfold step.
  destruct (is_empty (strip raw)).
  { exists []. rewrite app_nil_r. split; [done|]. intros r Hr. by apply elem_of_nil in Hr. }
  destruct (startswith "##" (strip raw)).
  { exists []. cbn. rewrite app_nil_r. split; [done|]. intros r Hr. by apply elem_of_nil in Hr. }
  destruct (capture _ _ _) as [r|] eqn:Hc; cbn.
  - exists [r]. split; [done|]. intros r' Hr'. apply list_elem_of_singleton in Hr' as ->.
    by apply capture_priority in Hc.
  - exists []. rewrite app_nil_r. split; [done|]. intros r Hr. by apply elem_of_nil in Hr.
Qed.

Lemma run_lines_snoc lines raw st :
  run_lines (lines ++ [raw]) st = step (run_lines lines st) raw.
Proof. unfold run_lines. by rewrite foldl_snoc. Qed.

(** Over lines that are skipped or carry no marker the priority stays, and
    every rule captured on them carries it. *)
Lemma run_lines_quiet lines st :
  Forall (fun raw => quiet raw = true) lines ->
  current_priority (run_lines lines st) = current_priority st
  /\ exists new, rules (run_lines lines st) = rules st ++ new
       /\ forall r, r ∈ new -> priority r = current_priority st.
Proof.
  induction lines as [|raw lines IH] using rev_ind; intros Hall.
  { split; [done|]. exists []. rewrite app_nil_r. split; [done|].
    intros r Hr. by apply elem_of_nil in Hr. }
  rewrite Forall_app, Forall_singleton in Hall. destruct Hall as [Hall Hraw].
  destruct (IH Hall) as (Hp & new & Hnew & Hprio).
  rewrite run_lines_snoc.
  assert (Hkeep : current_priority (step (run_lines lines st) raw) = current_priority st).
  { destruct (skipped raw) eqn:Hs.
    - destruct (step_skipped (run_lines lines st) raw Hs) as [-> _]. done.
    - rewrite step_priority by done. unfold quiet in Hraw. rewrite Hs in Hraw.
      simpl in Hraw. apply negb_true_iff in Hraw.
      by rewrite detect_priority_no_marker. }
  split; [done|].
  destruct (step_rules (run_lines lines st) raw) as (new' & Hnew' & Hprio').
  exists (new ++ new'). rewrite Hnew', Hnew, app_assoc. split; [done|].
  intros r Hr. apply elem_of_app in Hr as [Hr|Hr]; [by apply Hprio|].
  rewrite (Hprio' r Hr). done.
Qed.

(** A line that sets the priority to [p], followed by quiet lines: every
    rule captured carries [p]. *)
Lemma marker_then_quiet st c items p :
  skipped c = false ->
  detect_priority (strip c) (current_priority st) = p ->
  Forall (fun raw => quiet raw = true) items ->
  exists new, rules (run_lines (c :: items) st) = rules st ++ new
    /\ forall r, r ∈ new -> priority r = p.
Proof.
  intros Hc Hp Hitems.
  change (run_lines (c :: items) st) with (run_lines items (step st c)).
  pose proof (step_priority st c Hc) as Hprio. rewrite Hp in Hprio.
  destruct (step_rules st c) as (new1 & Hnew1 & Hp1). rewrite Hprio in Hp1.
  destruct (run_lines_quiet items (step st c) Hitems) as (_ & new2 & Hnew2 & Hp2).
  rewrite Hprio in Hp2.
  exists (new1 ++ new2). rewrite Hnew2, Hnew1, app_assoc. split; [done|].
  intros r [Hr|Hr]%elem_of_app; auto.
Qed.

Lemma run_lines_app l1 l2 st : run_lines (l1 ++ l2) st = run_lines l2 (run_lines l1 st).
Proof. unfold run_lines. apply foldl_app. Qed.

(** A line adds at most one rule. *)
Lemma step_adds_at_most_one st raw :
  exists new, rules (step st raw) = rules st ++ new
    /\ length new <= 1
    /\ forall r, r ∈ new -> priority r = current_priority (step st raw).
Proof.
  unfold step.
  destruct (is_empty (strip raw)).
  { exists []. rewrite app_nil_r. repeat split; [cbn; lia|].
    intros r Hr. by apply elem_of_nil in Hr. }
  destruct (startswith "##" (strip raw)).
  { exists []. cbn. rewrite app_nil_r. repeat split; [lia|].
    intros r Hr. by apply elem_of_nil in Hr. }
  destruct (capture _ _ _) as [r|] eqn:Hc; cbn.
  - exists [r]. repeat split; [cbn; lia|].
    intros r' Hr'. apply list_elem_of_singleton in Hr' as ->.
    by apply capture_priority in Hc.
  - exists []. rewrite app_nil_r. repeat split; [cbn; lia|].
    intros r Hr. by apply elem_of_nil in Hr.
Qed.

(** A line that opens with a list marker is neither blank nor a header. *)
Lemma match_not_skipped line :
  re_match_marker line = true ->
  is_empty line = false /\ startswith "##" line = false.
Proof.
  destruct line as [|c t]; [discriminate|]. intros H. split; [reflexivity|].
  destruct c as [[|] [|] [|] [|] [|] [|] [|] [|]];
    first [reflexivity | exfalso; vm_compute in H; discriminate H].
Qed.

(** A marker-free list item longer than the threshold is captured, under
    the priority in force, which it leaves as it is. *)
Lemma plain_item_step st raw :
  plain_item raw = true ->
  exists r, rules (step st raw) = rules st ++ [r]
    /\ priority r = current_priority st
    /\ current_priority (step st raw) = current_priority st.
Proof.
  unfold plain_item, long_item.
  intros [[Hm Hlen]%andb_prop Hno%negb_true_iff]%andb_prop.
  destruct (match_not_skipped _ Hm) as [He Hh].
  unfold step. rewrite He, Hh, (detect_priority_no_marker _ _ Hno).
  unfold capture. rewrite Hm. unfold item_rule. rewrite Hlen.
  destruct (strip (re_sub_marker (strip raw))) as [|x rest] eqn:Htext.
  { discriminate Hlen. }
  cbn [is_empty negb andb].
  eexists. cbn [rules current_priority]. repeat split.
Qed.

(** C3, as stated, fails: a header line (one that starts with [##] once
    stripped) is consumed as a category header before markers are looked
    for, so a marker in it does not update the priority; with header lines
    as the marker lines of the example, all four rules are medium. *)
Lemma marker_in_header_is_ignored :
  ~ (forall st raw,
       is_empty (strip raw) = false ->
       contains "CRITICAL" (strip raw) = true ->
       current_priority (step st raw) = critical)
  /\ priority <$> parse_markdown_rule "## CRITICAL RULES
- Never hardcode values in views
- Keep reducers free of side effects
- Route every effect through a client
## OPTIONAL
- Prefer trailing closures where short"
     = [medium; medium; medium; medium].
Proof.
  split; [|vm_compute; reflexivity].
  intros H. specialize (H initial "## CRITICAL RULES" eq_refl eq_refl).
  vm_compute in H. discriminate H.
Qed.

(** C3, amended.  On every line that is neither blank nor a header line
    (one starting with [##]) once stripped, the priority is updated from
    the markers the line contains, critical markers before important
    before optional, and stays when there is none; blank and header lines
    change neither the priority nor the rules; every rule captured on a
    line carries the priority in force after that line; and over any
    stretch of lines that are skipped or free of markers the priority
    stays and is the priority of every rule captured.  Hence, for a line
    with CRITICAL that is not a header, then quiet lines, then a line with
    OPTIONAL that is not a header and has no critical or important marker,
    then quiet lines, the rules captured up to the OPTIONAL line are
    critical and those captured from it on are low.  For a content whose
    lines are a CRITICAL line that is not a header, three marker-free list
    items longer than the threshold, an OPTIONAL line that is not a header
    and has none of CRITICAL, MUST, IMPORTANT and SHOULD, and one more
    such list item, each of the four items is captured: the rules are at
    most one rule of the CRITICAL line, the rules of the three items, at
    most one rule of the OPTIONAL line and the rule of the last item; the
    rules before the OPTIONAL line are critical, so the first three rules
    are critical, and the rules from it on are low, so the last rule is
    low.  On the input with a bare CRITICAL line, three list items, a bare
    OPTIONAL line and one list item, the priorities are critical,
    critical, critical, low. *)
Theorem priority_is_sticky :
  (forall st raw,
     skipped raw = false ->
     let line := strip raw in
     current_priority (step st raw) =
       if contains "CRITICAL" line || contains "MUST" line then critical
       else if contains "IMPORTANT" line || contains "SHOULD" line then high
       else if contains "OPTIONAL" line || contains "NICE TO HAVE" line then low
       else current_priority st)
  /\ (forall st raw,
        skipped raw = true ->
        current_priority (step st raw) = current_priority st
        /\ rules (step st raw) = rules st)
  /\ (forall st raw,
        exists new, rules (step st raw) = rules st ++ new
          /\ forall r, r ∈ new -> priority r = current_priority (step st raw))
  /\ (forall st lines,
        Forall (fun raw => quiet raw = true) lines ->
        current_priority (run_lines lines st) = current_priority st
        /\ exists new, rules (run_lines lines st) = rules st ++ new
             /\ forall r, r ∈ new -> priority r = current_priority st)
  /\ (forall st c items1 o items2,
        skipped c = false ->
        contains "CRITICAL" (strip c) = true ->
        Forall (fun raw => quiet raw = true) items1 ->
        skipped o = false ->
        contains "CRITICAL" (strip o) || contains "MUST" (strip o)
        || contains "IMPORTANT" (strip o) || contains "SHOULD" (strip o) = false ->
        contains "OPTIONAL" (strip o) = true ->
        Forall (fun raw => quiet raw = true) items2 ->
        let mid := run_lines (c :: items1) st in
        let final := run_lines (c :: items1 ++ o :: items2) st in
        (exists first, rules mid = rules st ++ first
           /\ forall r, r ∈ first -> priority r = critical)
        /\ (exists last, rules final = rules mid ++ last
              /\ forall r, r ∈ last -> priority r = low))
  /\ (forall content c i1 i2 i3 o i4,
        split_lines content = [c; i1; i2; i3; o; i4] ->
        skipped c = false ->
        contains "CRITICAL" (strip c) = true ->
        plain_item i1 = true -> plain_item i2 = true -> plain_item i3 = true ->
        skipped o = false ->
        contains "CRITICAL" (strip o) || contains "MUST" (strip o)
        || contains "IMPORTANT" (strip o) || contains "SHOULD" (strip o) = false ->
        contains "OPTIONAL" (strip o) = true ->
        plain_item i4 = true ->
        let captured := parse_markdown_rule content in
        (exists rc r1 r2 r3 ro r4,
           captured = rc ++ [r1; r2; r3] ++ ro ++ [r4]
           /\ length rc <= 1 /\ length ro <= 1
           /\ Forall (fun r => priority r = critical) (rc ++ [r1; r2; r3])
           /\ Forall (fun r => priority r = low) (ro ++ [r4]))
        /\ take 3 (priority <$> captured) = [critical; critical; critical]
        /\ last (priority <$> captured) = Some low)
  /\ priority <$> parse_markdown_rule "CRITICAL
- Never hardcode values in views
- Keep reducers free of side effects
- Route every effect through a client
OPTIONAL
- Prefer trailing closures where short"
     = [critical; critical; critical; low].
Proof.
  split; [|split; [|split; [|split; [|split; [|split]]]]].
  - intros st raw Hs line. subst line. by rewrite step_priority.
  - apply step_skipped.
  - apply step_rules.
  - intros st lines. apply run_lines_quiet.
  - intros st c items1 o items2 Hc Hcrit H1 Ho Hnone Hopt H2 mid final.
    split.
    + apply marker_then_quiet; [done| |done].
      unfold detect_priority. by rewrite Hcrit.
    + subst final. change (c :: items1 ++ o :: items2) with ((c :: items1) ++ o :: items2).
      rewrite run_lines_app. fold mid.
      apply marker_then_quiet; [done| |done].
      unfold detect_priority.
      repeat (apply orb_false_elim in Hnone as [Hnone ?]).
      repeat match goal with Hx : contains _ _ = false |- _ => rewrite Hx; clear Hx end.
      by rewrite Hopt.
  - intros content c i1 i2 i3 o i4 Hsplit Hc Hcrit H1 H2 H3 Ho Hnone Hopt H4 captured.
    subst captured. unfold parse_markdown_rule. rewrite Hsplit.
    unfold run_lines. cbn [foldl].
    assert (Hp1 : current_priority (step initial c) = critical).
    { rewrite step_priority by done. unfold detect_priority. by rewrite Hcrit. }
    destruct (step_adds_at_most_one initial c) as (rc & Hrc & Hlc & Hpc).
    rewrite Hp1 in Hpc. cbn [rules initial app] in Hrc.
    set (s1 := step initial c) in *.
    destruct (plain_item_step s1 i1 H1) as (r1 & Hr1 & Hq1 & Hk1).
    set (s2 := step s1 i1) in *.
    destruct (plain_item_step s2 i2 H2) as (r2 & Hr2 & Hq2 & Hk2).
    set (s3 := step s2 i2) in *.
    destruct (plain_item_step s3 i3 H3) as (r3 & Hr3 & Hq3 & Hk3).
    set (s4 := step s3 i3) in *.
    assert (Hp5 : current_priority (step s4 o) = low).
    { rewrite step_priority by done. unfold detect_priority.
      repeat (apply orb_false_elim in Hnone as [Hnone ?]).
      repeat match goal with Hx : contains _ _ = false |- _ => rewrite Hx; clear Hx end.
      by rewrite Hopt. }
    destruct (step_adds_at_most_one s4 o) as (ro & Hro & Hlo & Hpo).
    rewrite Hp5 in Hpo.
    set (s5 := step s4 o) in *.
    destruct (plain_item_step s5 i4 H4) as (r4 & Hr4 & Hq4 & Hk4).
    set (s6 := step s5 i4) in *.
    assert (Hall : rules s6 = rc ++ [r1; r2; r3] ++ ro ++ [r4]).
    { rewrite Hr4, Hro, Hr3, Hr2, Hr1, Hrc. by rewrite <- !app_assoc. }
    assert (Hc1 : priority r1 = critical) by congruence.
    assert (Hc2 : priority r2 = critical) by congruence.
    assert (Hc3 : priority r3 = critical) by congruence.
    assert (Hl4 : priority r4 = low) by congruence.
    split; [|split].
    + exists rc, r1, r2, r3, ro, r4. split; [exact Hall|].
      split; [exact Hlc|]. split; [exact Hlo|]. split.
      * apply Forall_app. split; [by apply Forall_forall|].
        by repeat constructor.
      * apply Forall_app. split; [by apply Forall_forall|].
        by repeat constructor.
    + rewrite Hall.
      destruct rc as [|r0 [|? ?]]; [| |cbn in Hlc; lia].
      * cbn. by rewrite Hc1, Hc2, Hc3.
      * cbn. rewrite (Hpc r0) by left. by rewrite Hc1, Hc2.
    + rewrite Hall, !app_assoc, fmap_app.
      change (priority <$> [r4]) with [priority r4].
      rewrite last_snoc. by rewrite Hl4.
  - vm_compute. reflexivity.
Qed.

Lemma priority_is_sticky_witness :
  split_lines marked_rules_text
  = ["CRITICAL"; "- Never hardcode values in views";
     "- Keep reducers free of side effects"; "- Route every effect through a client";
     "OPTIONAL (may be skipped)"; "- Prefer trailing closures where short"]
  /\ take 3 (priority <$> parse_markdown_rule marked_rules_text)
     = [critical; critical; critical]
  /\ last (priority <$> parse_markdown_rule marked_rules_text) = Some low.
Proof.
  assert (Hsplit : split_lines marked_rules_text
                   = ["CRITICAL"; "- Never hardcode values in views";
                      "- Keep reducers free of side effects";
                      "- Route every effect through a client";
                      "OPTIONAL (may be skipped)";
                      "- Prefer trailing closures where short"]) by reflexivity.
  split; [exact Hsplit|].
  exact (proj2 (proj1 (proj2 (proj2 (proj2 (proj2 (proj2 priority_is_sticky)))))
                  marked_rules_text _ _ _ _ _ _ Hsplit
                  eq_refl eq_refl eq_refl eq_refl eq_refl eq_refl eq_refl eq_refl
                  eq_refl)).
Defined.

(** C5.  A list item is to be captured exactly when its text without the
    leading marker, trimmed, is longer than the threshold, and with that
    text.  The code does otherwise on list items that contain a number
    followed by a dot after the marker: the substitution pattern deletes
    every such fragment, not only the marker that opens the line.  The
    text of the captured rule is then not the line without its marker
    ("Use iOS 0 as the minimum target"), and a line whose text without the
    marker is longer than the threshold can fail to be captured. *)
Theorem list_item_text_loses_numbered_fragments :
  (re_match_marker "- Use iOS 16.0 as the minimum target" = true
   /\ leading_marker_removed "- Use iOS 16.0 as the minimum target"
      = "Use iOS 16.0 as the minimum target"
   /\ parse_markdown_rule "- Use iOS 16.0 as the minimum target"
      = [Rule "Use iOS 0 as the minimum target" "general" medium None])
  /\ (re_match_marker "- 2024.01.15 release" = true
      /\ leading_marker_removed "- 2024.01.15 release" = "2024.01.15 release"
      /\ (min_length <? len (leading_marker_removed "- 2024.01.15 release")) = true
      /\ parse_markdown_rule "- 2024.01.15 release" = []).
Proof. vm_compute. repeat split; reflexivity. Qed.

End RulesIndexerFacts.

(** ** The module scanner *)

Module ScannerFacts.
Import PyStr Scanner ScannerSpec.

Section Scan.
Variable extract_symbols : string -> list (string * list string).
Variable extract_imports : string -> list string.
Variable cfg : config.

Abbreviation analyze := (analyze_file extract_symbols extract_imports cfg).
Abbreviation step := (scan_step extract_symbols extract_imports cfg).
Abbreviation analysis := (ScannerSpec.analysis extract_symbols extract_imports cfg).
Abbreviation analyzed := (ScannerSpec.analyzed extract_symbols extract_imports cfg).
Abbreviation files_of := (ScannerSpec.files_of extract_symbols extract_imports cfg).
Abbreviation accounted := (ScannerSpec.accounted extract_symbols extract_imports cfg).

Lemma analyzed_snoc tree f :
  analyzed (tree ++ [f])
  = analyzed tree ++ match analysis f with Some x => [x] | None => [] end.
Proof. unfold ScannerSpec.analyzed. rewrite omap_app. cbn. by destruct (analysis f). Qed.

Lemma files_of_snoc m tree f :
  files_of m (tree ++ [f])
  = files_of m tree
    ++ match analysis f with
       | Some x => if decide (identify_module cfg f = m) then [x.2] else []
       | None => []
       end.
Proof.
  unfold ScannerSpec.files_of. rewrite analyzed_snoc, filter_app, fmap_app. f_equal.
  destruct (analysis f) as [[f' info]|] eqn:Ha; [|done].
  assert (f' = f) as ->.
  { unfold ScannerSpec.analysis in Ha. destruct (should_ignore cfg f); [done|].
    destruct (analyze f); by inversion Ha. }
  destruct (decide (identify_module cfg f = m)) as [Hm|Hm].
  - by rewrite filter_cons_True.
  - by rewrite filter_cons_False.
Qed.

Lemma scan_accounted tree : accounted (foldl step (∅, ∅) tree).1 tree.
Proof.
  induction tree as [|f tree IH] using rev_ind.
  { intros m. cbn. by rewrite lookup_empty. }
  rewrite foldl_snoc. set (st := foldl step (∅, ∅) tree) in *.
  intros m. rewrite files_of_snoc. specialize (IH m).
  unfold scan_step, ScannerSpec.analysis.
  destruct (should_ignore cfg f).
  { rewrite app_nil_r. exact IH. }
  destruct (analyze f) as [info|].
  2:{ cbn. rewrite app_nil_r. exact IH. }
  cbn [fmap option_fmap option_map fst snd].
  destruct (decide (identify_module cfg f = m)) as [Hm|Hm].
  - subst m. rewrite lookup_insert_eq. cbn [acc_files acc_total_loc].
    destruct (st.1 !! identify_module cfg f) as [acc|]; cbn [default id].
    + destruct IH as [Hfiles Hloc]. split; [by rewrite Hfiles|].
      rewrite fmap_app, sum_list_with_app, Hloc. cbn. lia.
    + rewrite IH. cbn. split; [done|lia].
  - rewrite lookup_insert_ne by done. rewrite app_nil_r. exact IH.
Qed.

Lemma scan_project_lookup tree m :
  (scan_project extract_symbols extract_imports cfg tree).1 !! m
  = finalize <$> (foldl step (∅, ∅) tree).1 !! m.
Proof. unfold scan_project. cbn. by rewrite lookup_fmap. Qed.

(** The file list of every Module Record is the list of records of the
    analysed files of that module, and its total is their sum. *)
Lemma scan_project_files tree m rec :
  (scan_project extract_symbols extract_imports cfg tree).1 !! m = Some rec ->
  files rec = files_of m tree /\ total_loc rec = sum_list (loc <$> files rec).
Proof.
  rewrite scan_project_lookup. pose proof (scan_accounted tree m) as H.
  destruct (_ !! m) as [acc|]; [|done]. intros [= <-]. exact H.
Qed.

Lemma scan_project_missing tree m :
  (scan_project extract_symbols extract_imports cfg tree).1 !! m = None ->
  files_of m tree = [].
Proof.
  rewrite scan_project_lookup. pose proof (scan_accounted tree m) as H.
  by destruct (_ !! m) as [acc|].
Qed.

Lemma analysis_spec f x :
  analysis f = Some x <->
  should_ignore cfg f = false /\ x.1 = f /\ analyze f = Some x.2.
Proof.
  unfold ScannerSpec.analysis. destruct (should_ignore cfg f).
  { split; [done|]. by intros [? _]. }
  destruct (analyze f) as [info|]; cbn.
  - split.
    + by intros [= <-].
    + intros (_ & <- & [= ->]). by destruct x.
  - split; [done|]. by intros (_ & _ & ?).
Qed.

Lemma elem_of_files_of info m tree :
  info ∈ files_of m tree <->
  exists f, f ∈ tree /\ should_ignore cfg f = false /\ analyze f = Some info
            /\ identify_module cfg f = m.
Proof.
  unfold ScannerSpec.files_of, ScannerSpec.analyzed. rewrite list_elem_of_fmap. split.
  - intros ([f info'] & -> & Hin). apply list_elem_of_filter in Hin as [Hm Hin].
    apply list_elem_of_omap in Hin as (f' & Hf' & Ha).
    apply analysis_spec in Ha as (Hig & Hf & Han). cbn in *. subst f'.
    by exists f.
  - intros (f & Hin & Hig & Han & Hm). exists (f, info). split; [done|].
    apply list_elem_of_filter. split; [done|].
    apply list_elem_of_omap. exists f. split; [done|].
    by apply analysis_spec.
Qed.

Lemma analyze_path f info : analyze f = Some info -> path info = relative_path_str cfg f.
Proof. unfold analyze_file. destruct (content f); [|done]. by intros [= <-]. Qed.

Lemma analyzed_sublist tree : (analyzed tree).*1 `sublist_of` tree.
Proof.
  induction tree as [|f tree IH]; [done|].
  unfold ScannerSpec.analyzed. cbn. destruct (analysis f) as [x|] eqn:Ha.
  - apply analysis_spec in Ha as (_ & Hx & _). cbn. rewrite Hx. by apply sublist_skip.
  - by apply sublist_cons.
Qed.

Lemma analyzed_paths tree :
  path <$> (analyzed tree).*2 = relative_path_str cfg <$> (analyzed tree).*1.
Proof.
  unfold ScannerSpec.analyzed. induction tree as [|f tree IH]; [done|].
  cbn. destruct (analysis f) as [x|] eqn:Ha; [|done].
  apply analysis_spec in Ha as (_ & Hx & Han). cbn. rewrite IH.
  by rewrite (analyze_path _ _ Han), Hx.
Qed.

Lemma files_of_NoDup m tree :
  NoDup (relative_path_str cfg <$> tree) -> NoDup (files_of m tree).
Proof.
  intros Hnd. unfold ScannerSpec.files_of.
  apply (sublist_NoDup _ (analyzed tree).*2);
    [|apply fmap_sublist, sublist_filter].
  apply (NoDup_fmap_1 path). rewrite analyzed_paths.
  apply (sublist_NoDup _ (relative_path_str cfg <$> tree)); [exact Hnd|].
  apply fmap_sublist, analyzed_sublist.
Qed.

Lemma NoDup_fmap_eq {A B} (g : A -> B) (l : list A) x y :
  NoDup (g <$> l) -> x ∈ l -> y ∈ l -> g x = g y -> x = y.
Proof.
  induction l as [|a l IH]; intros Hnd Hx Hy Hg.
  { by apply elem_of_nil in Hx. }
  rewrite fmap_cons in Hnd. apply NoDup_cons in Hnd as [Hnotin Hnd].
  apply elem_of_cons in Hx as [->|Hx]; apply elem_of_cons in Hy as [->|Hy].
  - done.
  - exfalso. apply Hnotin. rewrite Hg. by apply list_elem_of_fmap_2.
  - exfalso. apply Hnotin. rewrite <- Hg. by apply list_elem_of_fmap_2.
  - by apply IH.
Qed.

(** C8.  The record of every analysed file is in the file list of the
    Module Record of the module [identify_module] gives it, and the total
    of every Module Record is the sum of the line counts of the records in
    its file list.  For a source tree, where files have pairwise distinct
    paths, the record of an analysed file is in the file list of no other
    Module Record, and no file list holds a record twice. *)
Theorem scan_project_partitions_files (tree : list source_file) :
  let mods := (scan_project extract_symbols extract_imports cfg tree).1 in
  (forall f info,
     f ∈ tree -> should_ignore cfg f = false -> analyze f = Some info ->
     exists rec, mods !! identify_module cfg f = Some rec /\ info ∈ files rec)
  /\ (forall m rec, mods !! m = Some rec ->
        total_loc rec = sum_list (loc <$> files rec))
  /\ (NoDup (relative_path_str cfg <$> tree) ->
      (forall f info m rec,
         f ∈ tree -> should_ignore cfg f = false -> analyze f = Some info ->
         mods !! m = Some rec -> info ∈ files rec -> m = identify_module cfg f)
      /\ (forall m rec, mods !! m = Some rec -> NoDup (files rec))).
Proof.
  intros mods. split; [|split].
  - intros f info Hin Hig Han.
    assert (Hfiles : info ∈ files_of (identify_module cfg f) tree).
    { apply elem_of_files_of. by exists f. }
    destruct (mods !! identify_module cfg f) as [rec|] eqn:Hrec.
    2:{ apply scan_project_missing in Hrec. rewrite Hrec in Hfiles.
        by apply elem_of_nil in Hfiles. }
    exists rec. split; [done|].
    destruct (scan_project_files _ _ _ Hrec) as [Hf _]. by rewrite Hf.
  - intros m rec Hrec. by destruct (scan_project_files _ _ _ Hrec).
  - intros Hnd. split.
    + intros f info m rec Hin Hig Han Hrec Hin'.
      destruct (scan_project_files _ _ _ Hrec) as [Hf _]. rewrite Hf in Hin'.
      apply elem_of_files_of in Hin' as (f' & Hin' & _ & Han' & <-).
      f_equal. apply (NoDup_fmap_eq (relative_path_str cfg) tree); try done.
      by rewrite <- (analyze_path _ _ Han), <- (analyze_path _ _ Han').
    + intros m rec Hrec. destruct (scan_project_files _ _ _ Hrec) as [Hf _].
      rewrite Hf. by apply files_of_NoDup.
Qed.

End Scan.

Lemma scan_project_partitions_files_witness :
  NoDup (relative_path_str sample_config <$> sample_tree)
  /\ forall m rec,
       (scan_project no_symbols no_imports sample_config sample_tree).1 !! m = Some rec ->
       NoDup (files rec).
Proof.
  assert (Hnd : NoDup (relative_path_str sample_config <$> sample_tree)).
  { apply (bool_decide_unpack _). vm_compute. exact I. }
  split; [exact Hnd|].
  exact (proj2 (proj2 (proj2 (scan_project_partitions_files no_symbols no_imports
                                sample_config sample_tree)) Hnd)).
Defined.

End ScannerFacts.

(** ** Relevance scoring *)

Module AnalysisFacts.
Import PyStr ContextGenerator ContextGeneratorSpec.

(** *** The running maximum *)

Lemma max_from_spec (values : list Q) (v : Q) :
  max_from v values ∈ v :: values
  /\ (v <= max_from v values)%Q
  /\ (forall x, x ∈ values -> (x <= max_from v values)%Q).
Proof.
  revert v. induction values as [|y values IH]; intros v.
  { split; [left|]. split; [apply Qle_refl|]. intros x Hx. by apply elem_of_nil in Hx. }
  change (max_from v (y :: values))
    with (max_from (if Qle_bool y v then v else y) values).
  destruct (Qle_bool y v) eqn:Hyv.
  - apply Qle_bool_iff in Hyv. destruct (IH v) as (Hin & Hv & Hall).
    split. { apply elem_of_cons in Hin as [->|Hin]; [left|right; by right]. }
    split; [done|]. intros x Hx. apply elem_of_cons in Hx as [->|Hx]; [|by apply Hall].
    by apply Qle_trans with v.
  - assert (Hlt : (v < y)%Q).
    { apply Qnot_le_lt. intros Hle. apply Qle_bool_iff in Hle. congruence. }
    destruct (IH y) as (Hin & Hy & Hall).
    split; [by right|]. split.
    + apply Qle_trans with y; [by apply Qlt_le_weak|done].
    + intros x Hx. apply elem_of_cons in Hx as [->|Hx]; [done|by apply Hall].
Qed.

Lemma max_value_in (values : list Q) : values ≠ [] -> max_value values ∈ values.
Proof. destruct values as [|v values]; [done|]. intros _. apply max_from_spec. Qed.

Lemma max_value_ge (values : list Q) (x : Q) : x ∈ values -> (x <= max_value values)%Q.
Proof.
  destruct values as [|v values]; [by intros ?%elem_of_nil|].
  intros Hx. cbn. destruct (max_from_spec values v) as (_ & Hv & Hall).
  apply elem_of_cons in Hx as [->|Hx]; [done|by apply Hall].
Qed.

(** *** The ranking *)

(** [sorted_desc] rearranges its argument and leaves it in descending
    order of score. *)
Lemma insert_desc_perm x (l : scores) : insert_desc x l ≡ₚ x :: l.
Proof.
  induction l as [|y l IH]; [done|]. cbn.
  destruct (Qle_bool y.2 x.2); [done|]. rewrite IH. apply Permutation_swap.
Qed.

Lemma sorted_desc_perm (l : scores) : sorted_desc l ≡ₚ l.
Proof.
  induction l as [|x l IH]; [done|]. cbn. by rewrite insert_desc_perm, IH.
Qed.

Lemma insert_desc_sorted x (l : scores) :
  Sorted (fun a b => (b.2 <= a.2)%Q) l ->
  Sorted (fun a b => (b.2 <= a.2)%Q) (insert_desc x l).
Proof.
  induction l as [|y l IH]; intros Hs; cbn.
  { by repeat constructor. }
  destruct (Qle_bool y.2 x.2) eqn:Hyx.
  - apply Qle_bool_iff in Hyx. constructor; [done|]. by constructor.
  - assert (Hlt : (x.2 < y.2)%Q).
    { apply Qnot_le_lt. intros Hle. apply Qle_bool_iff in Hle. congruence. }
    apply Sorted_inv in Hs as [Hs Hhd]. constructor; [by apply IH|].
    destruct l as [|z l]; cbn.
    + constructor. by apply Qlt_le_weak.
    + destruct (Qle_bool z.2 x.2); constructor.
      * by apply Qlt_le_weak.
      * by apply HdRel_inv in Hhd.
Qed.

Lemma sorted_desc_sorted (l : scores) :
  Sorted (fun a b => (b.2 <= a.2)%Q) (sorted_desc l).
Proof.
  induction l as [|x l IH]; cbn; [constructor|]. by apply insert_desc_sorted.
Qed.

(** *** Fractions *)

Lemma hits_le_length t kws : hits t kws <= length kws.
Proof. unfold hits. apply filter_length_le. Qed.

Lemma inject_nat_pos n : 0 < n -> (0 < inject_Z (Z.of_nat n))%Q.
Proof. intros H. rewrite <- (Zlt_Qlt 0). lia. Qed.

Lemma inject_nat_le a b : a <= b -> (inject_Z (Z.of_nat a) <= inject_Z (Z.of_nat b))%Q.
Proof. intros H. rewrite <- Zle_Qle. lia. Qed.

Lemma fraction_pos c kws : 0 < c -> c <= length kws -> (0 < fraction c kws)%Q.
Proof.
  intros Hc Hle. unfold fraction. apply Qlt_shift_div_l.
  - apply inject_nat_pos. lia.
  - rewrite Qmult_0_l. by apply inject_nat_pos.
Qed.

Lemma fraction_le_1 c kws : 0 < c -> c <= length kws -> (fraction c kws <= 1)%Q.
Proof.
  intros Hc Hle. unfold fraction. apply Qle_shift_div_r.
  - apply inject_nat_pos. lia.
  - rewrite Qmult_1_l. by apply inject_nat_le.
Qed.

Lemma fraction_zero kws : (fraction 0 kws == 0)%Q.
Proof. unfold fraction. cbn. unfold Qdiv. apply Qmult_0_l. Qed.

(** *** The first loop *)

Section Table.
Variable table : list (string * list string).
Variable t : string.

Lemma elem_of_raw_scores k v :
  (k, v) ∈ raw_scores table t <->
  exists kws, (k, kws) ∈ table /\ 0 < hits t kws /\ v = fraction (hits t kws) kws.
Proof.
  unfold raw_scores. rewrite list_elem_of_omap. split.
  - intros ([m kws] & Hin & Hsome).
    destruct (0 <? hits t kws) eqn:Hpos; [|done]. injection Hsome as <- <-.
    exists kws. apply Nat.ltb_lt in Hpos. done.
  - intros (kws & Hin & Hpos & ->). exists (k, kws). split; [done|].
    apply Nat.ltb_lt in Hpos. by rewrite Hpos.
Qed.

Lemma raw_value_bounds k v : (k, v) ∈ raw_scores table t -> (0 < v)%Q /\ (v <= 1)%Q.
Proof.
  intros (kws & _ & Hpos & ->)%elem_of_raw_scores.
  pose proof (hits_le_length t kws).
  split; [by apply fraction_pos|by apply fraction_le_1].
Qed.

Lemma get_score_absent k :
  k ∉ table.*1 -> get_score k (raw_scores table t) = None.
Proof.
  intros Hk. unfold get_score.
  destruct (List.find _ _) as [[k' v]|] eqn:Hfind; [|done].
  apply find_some in Hfind as [Hin Heq]. apply String.eqb_eq in Heq. cbn in Heq. subst k'.
  apply list_elem_of_In, elem_of_raw_scores in Hin as (kws & Hin & _).
  exfalso. apply Hk. apply list_elem_of_fmap. by exists (k, kws).
Qed.

Lemma get_score_raw k kws :
  NoDup table.*1 -> (k, kws) ∈ table ->
  get_score k (raw_scores table t)
  = if 0 <? hits t kws then Some (fraction (hits t kws) kws) else None.
Proof.
  intros Hnd Hin. unfold get_score.
  destruct (List.find _ _) as [[k' v]|] eqn:Hfind.
  - apply find_some in Hfind as [Hin' Heq]. apply String.eqb_eq in Heq. cbn in Heq. subst k'.
    apply list_elem_of_In, elem_of_raw_scores in Hin' as (kws' & Hin' & Hpos & ->).
    assert (kws' = kws) as ->.
    { clear -Hnd Hin Hin'. induction table as [|[m ks] tb IH]; [by apply elem_of_nil in Hin|].
      rewrite fmap_cons in Hnd. apply NoDup_cons in Hnd as [Hnot Hnd].
      apply elem_of_cons in Hin as [Heq|Hin];
        apply elem_of_cons in Hin' as [Heq'|Hin'].
      - congruence.
      - exfalso. apply Hnot. apply list_elem_of_fmap. exists (k, kws').
        split; [|done]. by injection Heq.
      - exfalso. apply Hnot. apply list_elem_of_fmap. exists (k, kws).
        split; [|done]. by injection Heq'.
      - by apply IH. }
    apply Nat.ltb_lt in Hpos. by rewrite Hpos.
  - destruct (0 <? hits t kws) eqn:Hpos; [|done]. exfalso.
    apply Nat.ltb_lt in Hpos.
    assert (Hraw : (k, fraction (hits t kws) kws) ∈ raw_scores table t)
      by (apply elem_of_raw_scores; by exists kws).
    apply list_elem_of_In in Hraw.
    apply (find_none _ _ Hfind) in Hraw. cbn in Hraw. by rewrite String.eqb_refl in Hraw.
Qed.

End Table.

(** *** Lookups in the returned map *)

Lemma get_score_fmap (g : Q -> Q) k (l : scores) :
  get_score k ((fun '(k, v) => (k, g v)) <$> l) = g <$> get_score k l.
Proof.
  unfold get_score. induction l as [|[k' v] l IH]; [done|].
  cbn. destruct (String.eqb k k'); [done|]. exact IH.
Qed.

Lemma get_score_app k (l1 l2 : scores) :
  get_score k (l1 ++ l2)
  = match get_score k l1 with Some v => Some v | None => get_score k l2 end.
Proof.
  unfold get_score. induction l1 as [|[k' v] l1 IH]; [done|].
  cbn. destruct (String.eqb k k'); [done|]. exact IH.
Qed.

Lemma has_key_get_score k (l : scores) :
  has_key k l = match get_score k l with Some _ => true | None => false end.
Proof.
  unfold has_key, get_score. induction l as [|[k' v] l IH]; [done|].
  cbn. destruct (String.eqb k k'); [done|]. exact IH.
Qed.

Lemma normalize_nil_iff (l : scores) : normalize l = [] <-> l = [].
Proof. unfold normalize. split; [apply fmap_nil_inv|by intros ->]. Qed.

(** The map [analyze_over] returns when something matched. *)
Lemma analyze_over_matched table t :
  raw_scores table t ≠ [] ->
  analyze_over table t
  = normalize (raw_scores table t)
    ++ (if has_key "Core" (normalize (raw_scores table t)) then []
        else [("Core", core_default)]).
Proof.
  intros Hne. unfold analyze_over.
  rewrite (bool_decide_eq_false_2 _ Hne). cbn [negb].
  rewrite bool_decide_eq_false_2 by (by rewrite normalize_nil_iff).
  cbn [negb andb]. destruct (has_key _ _); cbn; by rewrite ?app_nil_r.
Qed.

Lemma analyze_over_unmatched table t :
  raw_scores table t = [] -> analyze_over table t = [].
Proof. intros H. unfold analyze_over. by rewrite H. Qed.

(** The score of a module of the table in the returned map. *)
Lemma get_score_analyze table t k kws :
  NoDup table.*1 -> (k, kws) ∈ table ->
  get_score k (analyze_over table t)
  = if 0 <? hits t kws
    then Some (fraction (hits t kws) kws / max_value (raw_scores table t).*2)%Q
    else if String.eqb k "Core" && negb (bool_decide (raw_scores table t = []))
         then Some core_default else None.
Proof.
  intros Hnd Hin.
  destruct (decide (raw_scores table t = [])) as [Hnil|Hne].
  { rewrite analyze_over_unmatched by done.
    pose proof (get_score_raw table t k kws Hnd Hin) as Hraw. rewrite Hnil in Hraw.
    change (get_score k []) with (@None Q) in *.
    destruct (0 <? hits t kws); [done|].
    rewrite (bool_decide_eq_true_2 _ Hnil). by rewrite andb_false_r. }
  rewrite analyze_over_matched by done.
  rewrite (bool_decide_eq_false_2 _ Hne), andb_true_r. cbn [negb].
  rewrite get_score_app. unfold normalize at 1.
  rewrite get_score_fmap, (get_score_raw table t k kws Hnd Hin).
  destruct (0 <? hits t kws) eqn:Hpos; [done|]. cbn.
  destruct (String.eqb k "Core") eqn:Hk.
  - apply String.eqb_eq in Hk. subst k.
    rewrite has_key_get_score. unfold normalize.
    rewrite get_score_fmap, (get_score_raw table t "Core" kws Hnd Hin), Hpos. done.
  - destruct (has_key _ _); [done|]. unfold get_score. cbn. by rewrite Hk.
Qed.

Lemma elem_of_normalize k v (l : scores) :
  (k, v) ∈ normalize l <-> exists v0, (k, v0) ∈ l /\ v = (v0 / max_value l.*2)%Q.
Proof.
  unfold normalize. rewrite list_elem_of_fmap. split.
  - intros ([k' v0] & [= -> ->] & Hin). by exists v0.
  - intros (v0 & Hin & ->). by exists (k, v0).
Qed.

Lemma elem_of_analyze_over table t k v :
  (k, v) ∈ analyze_over table t ->
  (exists v0, (k, v0) ∈ raw_scores table t
              /\ v = (v0 / max_value (raw_scores table t).*2)%Q)
  \/ (k = "Core" /\ v = core_default).
Proof.
  destruct (decide (raw_scores table t = [])) as [Hnil|Hne].
  { rewrite analyze_over_unmatched by done. by intros ?%elem_of_nil. }
  rewrite analyze_over_matched by done. intros [Hin|Hin]%elem_of_app.
  - left. by apply elem_of_normalize.
  - right. destruct (has_key _ _); [by apply elem_of_nil in Hin|].
    apply list_elem_of_singleton in Hin. by injection Hin.
Qed.

Lemma hits_pos t kws kw : kw ∈ kws -> contains kw t = true -> 0 < hits t kws.
Proof.
  intros Hin Hc. unfold hits.
  assert (Hf : In kw (List.filter (fun keyword => contains keyword t) kws)).
  { apply filter_In. split; [by apply list_elem_of_In|done]. }
  destruct (List.filter _ kws); [done|]. cbn. lia.
Qed.

Lemma module_keywords_NoDup : NoDup module_keywords.*1.
Proof. apply (bool_decide_unpack _). vm_compute. exact I. Qed.

Lemma core_in_table : exists kws, ("Core", kws) ∈ module_keywords.
Proof. eexists. unfold module_keywords. in_list. Qed.

Lemma Qdiv_self (x : Q) : (0 < x)%Q -> (x / x == 1)%Q.
Proof.
  intros Hx. unfold Qdiv. apply Qmult_inv_r.
  intros H0. rewrite H0 in Hx. by apply Qlt_irrefl in Hx.
Qed.

(** C1.  When some configured keyword occurs in the lowercased task
    description, there is a maximum [best] among the fractions
    (matching keywords over keyword-set size) of the matched modules, and
    the returned map gives every matched module its fraction divided by
    [best], gives no entry to a module without a match other than Core,
    gives Core 0.3 when Core has no match, has no other keys, has all its
    values in (0,1], gives some module exactly 1, and has the key Core.
    For the description of the example, Features and Theme are scored
    (1 and 11/14) and Core is added at 0.3. *)
Theorem analyze_task_scores (task : string) :
  let t := lower task in
  (exists m kws kw, (m, kws) ∈ module_keywords /\ kw ∈ kws /\ contains kw t = true) ->
  (exists best : Q,
     (exists m kws, (m, kws) ∈ module_keywords /\ 0 < hits t kws
                    /\ best = fraction (hits t kws) kws)
     /\ (forall m kws, (m, kws) ∈ module_keywords ->
           (fraction (hits t kws) kws <= best)%Q)
     /\ (forall m kws, (m, kws) ∈ module_keywords -> 0 < hits t kws ->
           get_score m (analyze_task task)
           = Some (fraction (hits t kws) kws / best)%Q)
     /\ (forall m kws, (m, kws) ∈ module_keywords -> hits t kws = 0 ->
           get_score m (analyze_task task)
           = if String.eqb m "Core" then Some (3 # 10)%Q else None))
  /\ (forall k v, (k, v) ∈ analyze_task task ->
        k ∈ module_keywords.*1 /\ (0 < v)%Q /\ (v <= 1)%Q)
  /\ (exists k v, (k, v) ∈ analyze_task task /\ (v == 1)%Q)
  /\ has_key "Core" (analyze_task task) = true
  /\ analyze_task dark_mode_task
     = [("Features", (22 # 22)%Q); ("Theme", (11 # 14)%Q); ("Core", (3 # 10)%Q)].
Proof.
  intros t (m0 & kws0 & kw0 & Hin0 & Hkw0 & Hc0).
  pose proof module_keywords_NoDup as Hnd.
  set (raw := raw_scores module_keywords t).
  assert (Hraw0 : (m0, fraction (hits t kws0) kws0) ∈ raw).
  { apply elem_of_raw_scores. exists kws0. split; [done|]. split; [|done].
    by apply (hits_pos t kws0 kw0). }
  assert (Hne : raw ≠ []) by (intros Hnil; rewrite Hnil in Hraw0; by apply elem_of_nil in Hraw0).
  set (best := max_value raw.*2).
  assert (Hbest_in : exists k, (k, best) ∈ raw).
  { assert (H : best ∈ raw.*2).
    { apply max_value_in. intros Hnil. apply fmap_nil_inv in Hnil. done. }
    apply list_elem_of_fmap in H as ([k v] & -> & H). by exists k. }
  assert (Hbest_ge : forall k v, (k, v) ∈ raw -> (v <= best)%Q).
  { intros k v H. apply max_value_ge. apply list_elem_of_fmap. by exists (k, v). }
  assert (Hbest_pos : (0 < best)%Q).
  { destruct Hbest_in as [k Hk]. by apply (raw_value_bounds module_keywords t k). }
  assert (Hunfold : analyze_task task = analyze_over module_keywords t) by reflexivity.
  split; [exists best; split; [|split; [|split]]|split; [|split; [|split]]].
  - destruct Hbest_in as [k Hk]. apply elem_of_raw_scores in Hk as (kws & ? & ? & ?).
    by exists k, kws.
  - intros m kws Hin. destruct (Nat.eq_dec (hits t kws) 0) as [Hz|Hnz].
    + rewrite Hz, fraction_zero. by apply Qlt_le_weak.
    + apply (Hbest_ge m). apply elem_of_raw_scores. exists kws. split; [done|]. split; [lia|done].
  - intros m kws Hin Hpos. rewrite Hunfold, (get_score_analyze _ _ m kws Hnd Hin).
    apply Nat.ltb_lt in Hpos. by rewrite Hpos.
  - intros m kws Hin Hz. rewrite Hunfold, (get_score_analyze _ _ m kws Hnd Hin), Hz.
    cbn [Nat.ltb Nat.leb]. fold raw. rewrite (bool_decide_eq_false_2 _ Hne).
    by rewrite andb_true_r.
  - intros k v Hin. rewrite Hunfold in Hin.
    apply elem_of_analyze_over in Hin as [(v0 & Hin & ->)|[-> ->]].
    + fold raw in Hin. fold raw. fold best.
      destruct (raw_value_bounds module_keywords t k v0 Hin) as [Hpos _].
      pose proof Hin as Hk. apply elem_of_raw_scores in Hk as (kws & Hk & _).
      split; [apply list_elem_of_fmap; by exists (k, kws)|]. split.
      * apply Qlt_shift_div_l; [done|]. by rewrite Qmult_0_l.
      * apply Qle_shift_div_r; [done|]. rewrite Qmult_1_l. by apply (Hbest_ge k).
    + split; [unfold module_keywords; cbn; in_list|]. split; reflexivity || (by intros ?).
  - destruct Hbest_in as [k Hk]. exists k, (best / best)%Q. split; [|by apply Qdiv_self].
    rewrite Hunfold, analyze_over_matched by done. apply elem_of_app. left.
    apply elem_of_normalize. by exists best.
  - rewrite Hunfold, has_key_get_score. destruct core_in_table as [kws Hcore].
    rewrite (get_score_analyze _ _ "Core" kws Hnd Hcore). fold raw.
    destruct (0 <? hits t kws); [done|].
    by rewrite (bool_decide_eq_false_2 _ Hne).
  - vm_compute. reflexivity.
Qed.

Lemma analyze_task_scores_witness :
  (exists m kws kw, (m, kws) ∈ module_keywords /\ kw ∈ kws
                    /\ contains kw (lower dark_mode_task) = true)
  /\ has_key "Core" (analyze_task dark_mode_task) = true.
Proof.
  assert (H : exists m kws kw, (m, kws) ∈ module_keywords /\ kw ∈ kws
                               /\ contains kw (lower dark_mode_task) = true).
  { exists "Theme", ["theme"; "color"; "style"; "dark mode"; "typography"; "design"; "spacing"],
           "dark mode".
    split; [unfold module_keywords; in_list|]. split; [in_list|vm_compute; reflexivity]. }
  split; [exact H|].
  exact (proj1 (proj2 (proj2 (proj2 (analyze_task_scores dark_mode_task H))))).
Defined.

End AnalysisFacts.

(** ** Monotonicity of the relevance score *)

Module MonotonicityFacts.
Import PyStr ContextGenerator ContextGeneratorSpec AnalysisFacts.

(** *** Substrings of a concatenation *)

Lemma prefix_nil s : String.prefix "" s = true.
Proof. by destruct s. Qed.

Lemma prefix_cons c p x s :
  String.prefix (String c p) (String x s)
  = if ascii_dec c x then String.prefix p s else false.
Proof. cbn. by destruct (ascii_dec c x). Qed.

Lemma prefix_app_l p a b :
  String.prefix p a = true -> String.prefix p (a +:+ b) = true.
Proof.
  revert p. induction a as [|x a IH]; intros p.
  - destruct p as [|c p]; [intros _; apply prefix_nil|done].
  - destruct p as [|c p]; [intros _; apply prefix_nil|].
    change (String x a +:+ b) with (String x (a +:+ b)).
    rewrite !prefix_cons. destruct (ascii_dec c x); [apply IH|done].
Qed.

Lemma prefix_app_cases p a b :
  String.prefix p (a +:+ b) = true ->
  String.prefix p a = true
  \/ (String.length a < String.length p
      /\ String.prefix (drop_chars (String.length a) p) b = true).
Proof.
  revert p. induction a as [|x a IH]; intros p.
  - change ("" +:+ b) with b.
    destruct p as [|c p]; [by left|]. intros H. right. split; [cbn; lia|done].
  - destruct p as [|c p]; [by left|].
    change (String x a +:+ b) with (String x (a +:+ b)).
    rewrite !prefix_cons. destruct (ascii_dec c x); [|done]. intros H.
    destruct (IH p H) as [Hp|[Hlen Hp]]; [by left|right].
    split; [cbn; lia|done].
Qed.

Lemma cross_free_spec p b i :
  cross_free p b = true -> 0 < i < String.length p ->
  String.prefix (drop_chars i p) b = false.
Proof.
  unfold cross_free. rewrite forallb_forall. intros H Hi.
  specialize (H i). rewrite in_seq in H.
  apply negb_true_iff, H. lia.
Qed.

Lemma contains_app p a b :
  cross_free p b = true ->
  contains p (a +:+ b) = contains p a || contains p b.
Proof.
  intros Hfree. induction a as [|x a IH].
  - change ("" +:+ b) with b. destruct p as [|c p]; [|done].
    destruct b; reflexivity.
  - change (String x a +:+ b) with (String x (a +:+ b)).
    cbn [contains]. rewrite IH.
    destruct (String.prefix p (String x a)) eqn:Hpa.
    + change (String x (a +:+ b)) with (String x a +:+ b).
      by rewrite (prefix_app_l _ _ _ Hpa).
    + destruct (String.prefix p (String x (a +:+ b))) eqn:Hpab; [|done].
      change (String x (a +:+ b)) with (String x a +:+ b) in Hpab.
      apply prefix_app_cases in Hpab as [Hp|[Hlen Hp]]; [congruence|].
      rewrite (cross_free_spec p b (String.length (String x a))) in Hp; [done|done|].
      cbn in *. lia.
Qed.

Lemma lower_app a b : lower (a +:+ b) = lower a +:+ lower b.
Proof.
  unfold lower. induction a as [|x a IH]; [done|].
  change (String x a +:+ b) with (String x (a +:+ b)).
  cbn [map_chars]. rewrite IH. reflexivity.
Qed.

(** *** The keyword table *)

Lemma in_all_keywords m kws kw :
  (m, kws) ∈ module_keywords -> kw ∈ kws -> kw ∈ all_keywords.
Proof.
  intros Hm Hkw. unfold all_keywords. apply list_elem_of_bind.
  exists (m, kws). by split.
Qed.

Lemma table_check_ok : table_check = true.
Proof. vm_compute. reflexivity. Qed.

Lemma keyword_facts k :
  k ∈ all_keywords ->
  lower k = k /\ contains k k = true
  /\ forall p a, p ∈ all_keywords ->
       contains p (a +:+ " " +:+ k) = contains p a || contains p k.
Proof.
  intros Hk. pose proof table_check_ok as H. unfold table_check in H.
  rewrite forallb_forall in H. apply list_elem_of_In in Hk.
  specialize (H k Hk). apply andb_prop in H as [H Hall].
  apply andb_prop in H as [Hlow Hself]. apply String.eqb_eq in Hlow.
  split; [done|]. split; [done|]. intros p a Hp.
  rewrite forallb_forall in Hall. apply list_elem_of_In in Hp.
  specialize (Hall p Hp). apply andb_prop in Hall as [Hfree Heq].
  apply Bool.eqb_prop in Heq. by rewrite (contains_app p a _ Hfree), Heq.
Qed.

(** *** Counting with one more way to match *)

Section Counting.
Context {A : Type} (f g : A -> bool).

Lemma filter_or_nil l :
  List.filter g l = [] -> List.filter (fun x => f x || g x) l = List.filter f l.
Proof.
  induction l as [|x l IH]; [done|]. cbn.
  destruct (g x) eqn:Hg; [done|]. intros H. rewrite orb_false_r.
  destruct (f x); by rewrite IH.
Qed.

Lemma filter_or_mono l :
  length (List.filter f l) <= length (List.filter (fun x => f x || g x) l).
Proof.
  induction l as [|x l IH]; [done|]. cbn.
  destruct (f x); cbn; [lia|]. destruct (g x); cbn; lia.
Qed.

Lemma filter_or_single l k :
  List.filter g l = [k] ->
  length (List.filter (fun x => f x || g x) l)
  = length (List.filter f l) + (if f k then 0 else 1).
Proof.
  induction l as [|x l IH]; [done|]. cbn.
  destruct (g x) eqn:Hg.
  - intros [= -> Hrest]. rewrite orb_true_r. cbn.
    rewrite (filter_or_nil l Hrest). destruct (f k); cbn; lia.
  - intros H. rewrite orb_false_r. destruct (f x); cbn; rewrite IH by done; lia.
Qed.

Lemma filter_or_mem l k :
  In k l -> g k = true ->
  length (List.filter f l) + (if f k then 0 else 1)
  <= length (List.filter (fun x => f x || g x) l).
Proof.
  induction l as [|x l IH]; [done|]. intros [->|Hin] Hg; cbn.
  - rewrite Hg, orb_true_r. pose proof (filter_or_mono l).
    destruct (f k); cbn; lia.
  - specialize (IH Hin Hg). destruct (f x); cbn; [lia|]. destruct (g x); cbn; lia.
Qed.

End Counting.

(** *** Keywords shared between modules *)

Lemma overlap_check_ok : overlap_check = true.
Proof. vm_compute. reflexivity. Qed.

Lemma overlap_facts m kws k x kwsx :
  (m, kws) ∈ module_keywords -> k ∈ kws -> (x, kwsx) ∈ module_keywords -> x ≠ m ->
  List.filter (fun p => contains p k) kwsx = []
  \/ (List.filter (fun p => contains p k) kwsx = [k] /\ length kwsx = length kws).
Proof.
  intros Hm Hk Hx Hne. pose proof overlap_check_ok as H. unfold overlap_check in H.
  rewrite forallb_forall in H. apply list_elem_of_In in Hm. specialize (H _ Hm).
  rewrite forallb_forall in H. apply list_elem_of_In in Hk. specialize (H _ Hk).
  rewrite forallb_forall in H. apply list_elem_of_In in Hx. specialize (H _ Hx).
  cbn [fst snd] in H.
  apply orb_prop in H as [H|H]; [apply orb_prop in H as [H|H]|].
  - apply String.eqb_eq in H. done.
  - left. by apply bool_decide_eq_true_1 in H.
  - right. apply andb_prop in H as [H1 H2].
    apply bool_decide_eq_true_1 in H1. apply Nat.eqb_eq in H2. done.
Qed.

Lemma table_functional m kws kws' :
  (m, kws) ∈ module_keywords -> (m, kws') ∈ module_keywords -> kws = kws'.
Proof.
  intros H1 H2. pose proof module_keywords_NoDup as Hnd.
  revert H1 H2 Hnd. generalize module_keywords as table.
  induction table as [|[k ks] table IH]; intros H1 H2 Hnd; [by apply elem_of_nil in H1|].
  rewrite fmap_cons in Hnd. apply NoDup_cons in Hnd as [Hnot Hnd].
  apply elem_of_cons in H1 as [E1|H1]; apply elem_of_cons in H2 as [E2|H2].
  - congruence.
  - exfalso. apply Hnot. apply list_elem_of_fmap. exists (m, kws'). split; [|done].
    by injection E1.
  - exfalso. apply Hnot. apply list_elem_of_fmap. exists (m, kws). split; [|done].
    by injection E2.
  - by apply IH.
Qed.

(** *** The occurrences after a keyword is appended *)

Lemma hits_after t k x kwsx :
  k ∈ all_keywords -> (x, kwsx) ∈ module_keywords ->
  hits (t +:+ " " +:+ k) kwsx
  = length (List.filter (fun p => contains p t || contains p k) kwsx).
Proof.
  intros Hk Hx. unfold hits. f_equal. apply filter_ext_in. intros p Hp.
  destruct (keyword_facts k Hk) as (_ & _ & Hc). apply Hc.
  apply (in_all_keywords x kwsx); [done|by apply list_elem_of_In].
Qed.

(** *** Rational arithmetic *)

Lemma Qdiv_le_cross (a a' M M' : Q) :
  (0 < M)%Q -> (0 < M')%Q -> (a * M' <= a' * M)%Q -> (a / M <= a' / M')%Q.
Proof.
  intros HM HM' H. apply Qle_shift_div_l; [done|].
  setoid_replace (a / M * M')%Q with (a * M' / M)%Q
    using relation Qeq by (unfold Qdiv; ring).
  by apply Qle_shift_div_r.
Qed.

Lemma fraction_nonneg c kws : (0 <= fraction c kws)%Q.
Proof.
  unfold fraction, Qdiv. apply Qmult_le_0_compat.
  - rewrite <- (Zle_Qle 0). lia.
  - apply Qinv_le_0_compat. rewrite <- (Zle_Qle 0). lia.
Qed.

Lemma fraction_mono c c' kws : c <= c' -> (fraction c kws <= fraction c' kws)%Q.
Proof.
  intros H. unfold fraction, Qdiv. apply Qmult_le_compat_r.
  - by apply inject_nat_le.
  - apply Qinv_le_0_compat. rewrite <- (Zle_Qle 0). lia.
Qed.

Lemma fraction_same_size c kws kws' :
  length kws = length kws' -> fraction c kws = fraction c kws'.
Proof. unfold fraction. by intros ->. Qed.

Lemma fraction_mul_le a b c d kws :
  a * b <= c * d ->
  (fraction a kws * fraction b kws <= fraction c kws * fraction d kws)%Q.
Proof.
  intros H. unfold fraction, Qdiv.
  set (n := (/ inject_Z (Z.of_nat (length kws)))%Q).
  assert (Hn : (0 <= n * n)%Q).
  { assert (0 <= n)%Q by (apply Qinv_le_0_compat; rewrite <- (Zle_Qle 0); lia).
    by apply Qmult_le_0_compat. }
  setoid_replace (inject_Z (Z.of_nat a) * n * (inject_Z (Z.of_nat b) * n))%Q
    with (inject_Z (Z.of_nat a) * inject_Z (Z.of_nat b) * (n * n))%Q
    using relation Qeq by ring.
  setoid_replace (inject_Z (Z.of_nat c) * n * (inject_Z (Z.of_nat d) * n))%Q
    with (inject_Z (Z.of_nat c) * inject_Z (Z.of_nat d) * (n * n))%Q
    using relation Qeq by ring.
  apply Qmult_le_compat_r; [|done].
  rewrite <- !inject_Z_mult, <- Zle_Qle. nia.
Qed.

(** *** The maximum over the matched modules *)

Lemma best_spec table t :
  raw_scores table t ≠ [] ->
  let best := max_value (raw_scores table t).*2 in
  (0 < best)%Q
  /\ (exists k kws, (k, kws) ∈ table /\ 0 < hits t kws
                    /\ best = fraction (hits t kws) kws)
  /\ (forall k kws, (k, kws) ∈ table -> 0 < hits t kws ->
        (fraction (hits t kws) kws <= best)%Q).
Proof.
  intros Hne best.
  assert (Hin : exists k, (k, best) ∈ raw_scores table t).
  { assert (H : best ∈ (raw_scores table t).*2).
    { apply max_value_in. intros Hnil. by apply fmap_nil_inv in Hnil. }
    apply list_elem_of_fmap in H as ([k v] & -> & H). by exists k. }
  destruct Hin as [k Hk]. split; [by apply (raw_value_bounds table t k)|]. split.
  - apply elem_of_raw_scores in Hk as (kws & ? & ? & ?). by exists k, kws.
  - intros k' kws Hin Hpos. apply max_value_ge. apply list_elem_of_fmap.
    exists (k', fraction (hits t kws) kws). split; [done|].
    apply elem_of_raw_scores. by exists kws.
Qed.

Lemma raw_nonempty table t k kws :
  (k, kws) ∈ table -> 0 < hits t kws -> raw_scores table t ≠ [].
Proof.
  intros Hin Hpos Hnil.
  assert (H : (k, fraction (hits t kws) kws) ∈ raw_scores table t)
    by (apply elem_of_raw_scores; by exists kws).
  rewrite Hnil in H. by apply elem_of_nil in H.
Qed.

(** C4, as stated, fails on the module that is always included.  For the
    description "utility helper" only Utilities matches (3 of 5) and Core
    is added at 0.3; with the Core keyword "state" appended, Core has its
    own fraction 1/7, which normalises to 5/21, below 0.3.  This holds
    whether the keyword is appended after a space or directly. *)
Lemma forced_core_score_can_drop :
  ~ (forall task m kws kw,
       (m, kws) ∈ module_keywords -> kw ∈ kws ->
       (score_of m (analyze_task task)
        <= score_of m (analyze_task (task +:+ " " +:+ kw)))%Q)
  /\ ~ (forall task m kws kw,
         (m, kws) ∈ module_keywords -> kw ∈ kws ->
         (score_of m (analyze_task task)
          <= score_of m (analyze_task (task +:+ kw)))%Q).
Proof.
  split; intros H;
    specialize (H "utility helper" "Core"
                  ["state"; "reducer"; "action"; "store"; "tca"; "architecture"; "config"]
                  "state");
    (lapply H; [clear H; intros H|unfold module_keywords; in_list]);
    (lapply H; [clear H; intros H|in_list]);
    vm_compute in H; by apply H.
Qed.

(** C4, amended.  For a module that already has a matching keyword in the
    description, or that is not Core, appending one of its keywords after a
    space never lowers its score in the returned map (a module without an
    entry counting as zero). *)
Theorem appended_keyword_does_not_lower_score
    (task m : string) (kws : list string) (kw : string) :
  (m, kws) ∈ module_keywords -> kw ∈ kws ->
  m ≠ "Core" \/ 0 < hits (lower task) kws ->
  (score_of m (analyze_task task)
   <= score_of m (analyze_task (task +:+ " " +:+ kw)))%Q.
Proof.
  intros Hm Hkw Hcond.
  pose proof (in_all_keywords _ _ _ Hm Hkw) as Hk.
  destruct (keyword_facts kw Hk) as (Hlow & Hself & Hcont).
  pose proof module_keywords_NoDup as Hnd.
  unfold analyze_task.
  replace (lower (task +:+ " " +:+ kw)) with (lower task +:+ " " +:+ kw)
    by (by rewrite !lower_app, Hlow).
  set (t := lower task) in *. set (t' := t +:+ " " +:+ kw).
  set (f := fun p => contains p t). set (g := fun p => contains p kw).
  assert (Hafter : forall x kwsx, (x, kwsx) ∈ module_keywords ->
            hits t' kwsx = length (List.filter (fun p => f p || g p) kwsx)).
  { intros x kwsx Hx. by apply (hits_after t kw x kwsx). }
  assert (Hmono : forall x kwsx, (x, kwsx) ∈ module_keywords ->
            hits t kwsx <= hits t' kwsx).
  { intros x kwsx Hx. rewrite (Hafter x kwsx Hx). apply filter_or_mono. }
  assert (Hgain : hits t kws + (if f kw then 0 else 1) <= hits t' kws).
  { rewrite (Hafter m kws Hm). apply filter_or_mem; [by apply list_elem_of_In|done]. }
  assert (Hpos' : 0 < hits t' kws).
  { apply (hits_pos t' kws kw Hkw). unfold t'. rewrite (Hcont kw t Hk), Hself.
    apply orb_true_r. }
  destruct (best_spec module_keywords t' (raw_nonempty _ _ _ _ Hm Hpos'))
    as (HM' & (y & kwsy & Hy & Hypos & HM'eq) & _).
  unfold score_of. rewrite !(get_score_analyze _ _ m kws Hnd Hm).
  replace (0 <? hits t' kws) with true by (symmetry; by apply Nat.ltb_lt).
  cbn [default].
  destruct (0 <? hits t kws) eqn:Hpos.
  2:{ (* no match before: the module has no entry unless it is Core *)
      apply Nat.ltb_ge in Hpos. destruct Hcond as [Hcore|Hcond]; [|lia].
      replace (String.eqb m "Core") with false
        by (symmetry; by apply String.eqb_neq).
      cbn [andb default]. apply Qle_shift_div_l; [done|].
      rewrite Qmult_0_l. apply fraction_nonneg. }
  apply Nat.ltb_lt in Hpos. cbn [default].
  destruct (best_spec module_keywords t (raw_nonempty _ _ _ _ Hm Hpos))
    as (HM & _ & HMge).
  set (M := max_value (raw_scores module_keywords t).*2) in *.
  set (M' := max_value (raw_scores module_keywords t').*2) in *.
  apply Qdiv_le_cross; [done|done|].
  assert (Hfm : (fraction (hits t kws) kws <= M)%Q) by (by apply (HMge m)).
  assert (Hff : (fraction (hits t kws) kws <= fraction (hits t' kws) kws)%Q)
    by (apply fraction_mono, (Hmono m kws Hm)).
  destruct (decide (y = m)) as [->|Hne].
  { (* the new maximum is the module itself *)
    rewrite (table_functional m kwsy kws Hy Hm) in HM'eq. rewrite HM'eq.
    rewrite (Qmult_comm (fraction (hits t' kws) kws) M).
    apply Qmult_le_compat_r; [done|apply fraction_nonneg]. }
  destruct (overlap_facts m kws kw y kwsy Hm Hkw Hy Hne) as [Hnone|[Hone Hsize]].
  { (* the new maximum belongs to a module the keyword does not touch *)
    assert (Hsame : hits t' kwsy = hits t kwsy).
    { rewrite (Hafter y kwsy Hy). unfold hits. f_equal. by apply filter_or_nil. }
    rewrite HM'eq, Hsame. rewrite Hsame in Hypos.
    apply Qmult_le_compat_nonneg.
    - split; [apply fraction_nonneg|done].
    - split; [apply fraction_nonneg|by apply (HMge y)]. }
  (* the new maximum belongs to a module that shares the keyword *)
  assert (Hstep : hits t' kwsy = hits t kwsy + (if f kw then 0 else 1)).
  { rewrite (Hafter y kwsy Hy). by apply filter_or_single. }
  rewrite HM'eq, (fraction_same_size _ kwsy kws Hsize).
  destruct (le_lt_dec (hits t' kwsy) (hits t' kws)) as [Hle|Hlt].
  { rewrite (Qmult_comm (fraction (hits t' kws) kws) M).
    apply Qmult_le_compat_nonneg.
    - split; [apply fraction_nonneg|done].
    - split; [apply fraction_nonneg|by apply fraction_mono]. }
  assert (Hyt : 0 < hits t kwsy) by (destruct (f kw); lia).
  apply Qle_trans with (fraction (hits t kws + (if f kw then 0 else 1)) kws
                        * fraction (hits t kwsy) kws)%Q.
  - apply fraction_mul_le. rewrite Hstep. destruct (f kw); nia.
  - apply Qmult_le_compat_nonneg.
    + split; [apply fraction_nonneg|by apply fraction_mono].
    + split; [apply fraction_nonneg|].
      rewrite <- (fraction_same_size _ kwsy kws Hsize). by apply (HMge y).
Qed.

Lemma appended_keyword_does_not_lower_score_witness :
  "Features" ≠ "Core"
  /\ (score_of "Features" (analyze_task "Fix the profile editor")
      <= score_of "Features" (analyze_task ("Fix the profile editor" +:+ " " +:+ "screen")))%Q.
Proof.
  assert (Hne : "Features" ≠ "Core") by discriminate.
  split; [exact Hne|].
  apply (appended_keyword_does_not_lower_score "Fix the profile editor" "Features"
           ["screen"; "view"; "feature"; "user interface"; "ui"; "page";
            "onboarding"; "auth"; "settings"; "home"; "profile"] "screen").
  - unfold module_keywords. in_list.
  - in_list.
  - left. exact Hne.
Defined.

End MonotonicityFacts.

(** ** The context assembler *)

Module AssemblyFacts.
Import PyStr ContextGenerator ContextGeneratorSpec.




(** The estimate the module loop ends with is the one it starts from plus
    the estimates of the blocks it appended, and the last block, if there
    is one, was appended while the estimate had not exceeded 60%. *)
Lemma modules_loop_tokens env ranked tc parts final :
  modules_loop env ranked tc = (parts, final) ->
  final = tc + sum_list (estimate_tokens <$> parts)
  /\ (parts = [] \/
      exists init last, parts = init ++ [last]
        /\ 5 * (final - estimate_tokens last) <= 3 * max_tokens env).
Proof.
  revert tc parts final.
  induction ranked as [|[m s] rest IH]; intros tc parts final; cbn [modules_loop].
  - intros [= <- <-]. split; [cbn; lia|by left].
  - destruct (over_60 env tc) eqn:Hover.
    { intros [= <- <-]. split; [cbn; lia|by left]. }
    destruct (load_module_data env m) as [d|]; [|apply IH].
    destruct (modules_loop env rest _) as [parts' final'] eqn:Hrec.
    intros [= <- <-]. destruct (IH _ _ _ Hrec) as [Hsum Hlast].
    assert (Hcons : sum_list (estimate_tokens <$> module_section m s d :: parts')
                    = estimate_tokens (module_section m s d)
                      + sum_list (estimate_tokens <$> parts')) by reflexivity.
    split; [lia|]. right.
    destruct Hlast as [->|(init & last & -> & Hle)].
    + exists [], (module_section m s d). split; [done|].
      change (sum_list (estimate_tokens <$> [])) with 0 in Hsum.
      unfold over_60 in Hover. apply Nat.ltb_ge in Hover. lia.
    + exists (module_section m s d :: init), last. by split.
Qed.

Lemma rules_loop_prefix env i rules tc :
  (rules_loop env i rules tc).1 `prefix_of` rule_lines i rules.
Proof.
  revert i tc. induction rules as [|r rest IH]; intros i tc; simpl; [done|].
  destruct (over_85 env tc); [apply prefix_nil|].
  specialize (IH (S i) (tc + estimate_tokens (rule_line i r))).
  destruct (rules_loop env (S i) rest _) as [parts final]. simpl in *.
  by apply prefix_cons.
Qed.

Lemma rules_loop_grows env i rules tc : tc <= (rules_loop env i rules tc).2.
Proof.
  revert i tc. induction rules as [|r rest IH]; intros i tc; simpl; [done|].
  destruct (over_85 env tc); [done|].
  specialize (IH (S i) (tc + estimate_tokens (rule_line i r))).
  destruct (rules_loop env (S i) rest _) as [parts final]. simpl in *. lia.
Qed.

Lemma rules_loop_complete env i rules tc :
  over_85 env (rules_loop env i rules tc).2 = false ->
  (rules_loop env i rules tc).1 = rule_lines i rules.
Proof.
  revert i tc. induction rules as [|r rest IH]; intros i tc; simpl; [done|].
  destruct (over_85 env tc) eqn:Hover; [simpl; congruence|].
  specialize (IH (S i) (tc + estimate_tokens (rule_line i r))).
  destruct (rules_loop env (S i) rest _) as [parts final]. simpl in *.
  intros H. by rewrite IH.
Qed.

Lemma selected_rules_eq env all_rules :
  rules_file env = Some all_rules ->
  selected_rules env = top_five all_rules "critical" ++ top_five all_rules "high"
  /\ length (selected_rules env) <= 10.
Proof.
  intros Hfile.
  assert (Hload : load_rules env ["critical"; "high"]
                  = top_five all_rules "critical" ++ top_five all_rules "high").
  { unfold load_rules, top_five. rewrite Hfile. simpl.
    destruct (all_rules !! "critical"), (all_rules !! "high"); simpl;
      by rewrite ?app_nil_r, ?take_nil. }
  assert (Hlen : length (load_rules env ["critical"; "high"]) <= 10).
  { rewrite Hload, length_app. unfold top_five. rewrite !length_take. lia. }
  unfold selected_rules. rewrite take_ge by lia. by rewrite <- Hload.
Qed.

Lemma assemble_fields env task ranked :
  let a := assemble env task ranked in
  (module_parts a, tokens_before_rules a)
    = modules_loop env (take 5 ranked) (estimate_tokens (header task (now env)))
  /\ (rule_parts a, tokens_after_rules a)
    = rules_loop env 1 (selected_rules env) (tokens_before_rules a).
Proof.
  unfold assemble.
  destruct (modules_loop env (take 5 ranked) _) as [mparts tc1].
  destruct (rules_loop env 1 (selected_rules env) tc1) as [rparts tc2] eqn:Hr.
  simpl. by rewrite Hr.
Qed.


End AssemblyFacts.

(** ** Context generation: budget, rules, fallback, missing documents *)

Module ContextGeneratorFacts.
Import PyStr ContextGenerator ContextGeneratorSpec AssemblyFacts.

Lemma no_keyword_inb_spec t : no_keyword_inb t = true -> no_keyword_in t.
Proof.
  unfold no_keyword_inb, no_keyword_in. rewrite forallb_forall.
  intros H m kws kw Hm Hkw.
  apply list_elem_of_In in Hm. specialize (H _ Hm). cbn in H.
  rewrite forallb_forall in H. apply list_elem_of_In in Hkw.
  specialize (H _ Hkw). by destruct (contains kw t).
Qed.

Lemma hits_none t kws :
  (forall kw, kw ∈ kws -> contains kw t = false) -> hits t kws = 0.
Proof.
  unfold hits. induction kws as [|k kws IH]; intros H; [done|].
  cbn [List.filter]. rewrite (H k) by left. apply IH. intros kw Hkw. apply H. by right.
Qed.

Lemma raw_scores_none table t :
  (forall m kws kw, (m, kws) ∈ table -> kw ∈ kws -> contains kw t = false) ->
  raw_scores table t = [].
Proof.
  unfold raw_scores. induction table as [|[m kws] table IH]; intros H; [done|].
  cbn [omap list_omap]. rewrite hits_none by (intros kw Hkw; eapply H; [left|done]).
  cbn. apply IH. intros m' kws' kw Hm Hkw. eapply H; [right|]; done.
Qed.

(** C2, as stated, fails: with a budget of 400 the header is estimated at
    213 units, which is within 60% (240), so the block of the first ranked
    module is appended; it adds 78 units, and rule-section assembly begins
    with an estimate of 291. *)
Lemma estimate_before_rules_can_exceed_60 :
  ~ (forall env task, over_60 env (tokens_before_rules (assembly_of env task)) = false).
Proof.
  intros H. specialize (H small_budget dark_mode_task).
  vm_compute in H. discriminate H.
Qed.

(** C2, amended.  When rule-section assembly begins, the running estimate
    is the estimate of the header plus the estimates of the module blocks
    appended, and every block was appended under the check: either no
    block was appended, or the estimate without the last appended block
    had not exceeded 60% of the budget. *)
Theorem estimate_before_rules_bound (env : environment) (task : string) :
  let a := assembly_of env task in
  tokens_before_rules a
    = estimate_tokens (header task (now env))
      + sum_list (estimate_tokens <$> module_parts a)
  /\ (module_parts a = [] \/
      exists init last, module_parts a = init ++ [last]
        /\ 5 * (tokens_before_rules a - estimate_tokens last) <= 3 * max_tokens env).
Proof.
  intros a. subst a. unfold assembly_of.
  destruct (assemble_fields env task (relevant_modules task)) as [Hm _].
  symmetry in Hm. apply (modules_loop_tokens _ _ _ _ _ Hm).
Qed.

(** C7, as stated, fails: with six critical and six high rules persisted
    and a budget that never intervenes, the rules section has ten lines,
    not the first twelve of the combined rules. *)
Lemma rules_section_is_not_top_twelve :
  ~ (forall env all_rules task,
       rules_file env = Some all_rules ->
       12 <= length (combined all_rules) ->
       over_85 env (tokens_after_rules (assembly_of env task)) = false ->
       rule_parts (assembly_of env task) = rule_lines 1 (take 12 (combined all_rules))).
Proof.
  intros H.
  specialize (H large_budget twelve_rules dark_mode_task eq_refl).
  assert (Hlen : 12 <= length (combined twelve_rules)) by (vm_compute; lia).
  specialize (H Hlen). apply (f_equal length) in H; [|vm_compute; reflexivity].
  vm_compute in H. discriminate H.
Qed.

(** C7, amended.  The rules section is drawn from the first five critical
    rules followed by the first five high rules of the persisted rules
    document, in stored order (at most ten rules, so the slice of twelve
    never cuts); its lines are an initial part of the numbered lines of
    those rules, and all of them when the estimate at the end of the
    section has not exceeded 85% of the budget. *)
Theorem rules_section_is_top_five_per_priority
    (env : environment) (all_rules : gmap string (list rule)) (task : string) :
  rules_file env = Some all_rules ->
  let chosen := top_five all_rules "critical" ++ top_five all_rules "high" in
  let a := assembly_of env task in
  selected_rules env = chosen
  /\ length chosen <= 10
  /\ rule_parts a `prefix_of` rule_lines 1 chosen
  /\ (over_85 env (tokens_after_rules a) = false -> rule_parts a = rule_lines 1 chosen).
Proof.
  intros Hfile chosen a.
  destruct (selected_rules_eq env all_rules Hfile) as [Hsel Hlen].
  fold chosen in Hsel. rewrite Hsel in Hlen.
  destruct (assemble_fields env task (relevant_modules task)) as [_ Hr].
  fold (assembly_of env task) in Hr. fold a in Hr. rewrite Hsel in Hr.
  split; [done|]. split; [done|]. split.
  - replace (rule_parts a) with (rules_loop env 1 chosen (tokens_before_rules a)).1
      by (by rewrite <- Hr).
    apply rules_loop_prefix.
  - replace (tokens_after_rules a) with (rules_loop env 1 chosen (tokens_before_rules a)).2
      by (by rewrite <- Hr).
    intros Hover.
    replace (rule_parts a) with (rules_loop env 1 chosen (tokens_before_rules a)).1
      by (by rewrite <- Hr).
    by apply rules_loop_complete.
Qed.

Lemma rules_section_is_top_five_per_priority_witness :
  rules_file large_budget = Some twelve_rules
  /\ over_85 large_budget (tokens_after_rules (assembly_of large_budget dark_mode_task)) = false
  /\ rule_parts (assembly_of large_budget dark_mode_task)
     = rule_lines 1 ((sample_rule critical <$> seq 1 5) ++ (sample_rule high <$> seq 1 5)).
Proof.
  pose proof (rules_section_is_top_five_per_priority large_budget twelve_rules
                dark_mode_task eq_refl) as H.
  cbv zeta in H. destruct H as (_ & _ & _ & H).
  split; [reflexivity|]. split; [vm_compute; reflexivity|].
  rewrite H by (vm_compute; reflexivity). reflexivity.
Defined.

(** C6.  When no configured keyword occurs in the lowercased task
    description, [analyze_task] returns the empty map, the ranked list is
    exactly Core at 1.0 followed by Features at 0.5, and the digest is
    assembled over that list: it is produced, opens with the header and
    closes with the footer. *)
Theorem no_keyword_uses_fallback (env : environment) (task : string) :
  no_keyword_in (lower task) ->
  analyze_task task = []
  /\ relevant_modules task = [("Core", 1%Q); ("Features", (1 # 2)%Q)]
  /\ assembly_of env task = assemble env task fallback_scores
  /\ exists middle,
       generate_context env task
       = concat ([header task (now env); modules_heading] ++ middle
                 ++ [footer task (tokens_after_rules (assembly_of env task))]).
Proof.
  intros Hnone.
  assert (Hempty : analyze_task task = []).
  { unfold analyze_task, analyze_over. by rewrite (raw_scores_none _ _ Hnone). }
  assert (Hrank : relevant_modules task = [("Core", 1%Q); ("Features", (1 # 2)%Q)]).
  { unfold relevant_modules. rewrite Hempty. reflexivity. }
  split; [done|]. split; [done|]. split.
  { unfold assembly_of. rewrite Hrank. reflexivity. }
  unfold generate_context, assembly_of, assemble.
  destruct (modules_loop env _ _) as [mparts tc1].
  destruct (rules_loop env 1 _ tc1) as [rparts tc2].
  cbn [context_parts tokens_after_rules].
  exists (mparts ++ [rules_heading] ++ rparts ++ quick_reference_parts env tc2).
  by rewrite <- !app_assoc.
Qed.

Lemma no_keyword_uses_fallback_witness :
  no_keyword_in (lower typo_task)
  /\ relevant_modules typo_task = [("Core", 1%Q); ("Features", (1 # 2)%Q)].
Proof.
  assert (H : no_keyword_in (lower typo_task))
    by (apply no_keyword_inb_spec; vm_compute; reflexivity).
  split; [exact H|].
  exact (proj1 (proj2 (no_keyword_uses_fallback small_budget typo_task H))).
Defined.



End ContextGeneratorFacts.

(** ** The orchestrator *)


Module MasterIndexerFacts.
Import PyStr MasterIndexer MasterIndexerSpec.

Lemma printed_print line st : printed (print line st) = printed st ++ [line].
Proof. reflexivity. Qed.

Lemma generate_summary_printed w st :
  printed (generate_summary w st) = printed st ++ summary_lines w (st_stats st)
  /\ st_stats (generate_summary w st) = st_stats st
  /\ index_file (generate_summary w st) = index_file st.
Proof.
  unfold generate_summary.
  generalize (summary_lines w (st_stats st)) as lines.
  intros lines; revert st.
  induction lines as [|l lines IH]; intros st; simpl.
  - by rewrite app_nil_r.
  - destruct (IH (print l st)) as (Hp & Hs & Hi).
    rewrite Hp, Hs, Hi. simpl. by rewrite <- app_assoc.
Qed.

(** C9, as stated, fails: the index update has its own handler, and when
    reading or writing [index.json] raises, the error list of the run is
    not persisted and the master index is not updated, although the run
    still ends with exit status zero. *)
Lemma rules_failure_is_not_always_persisted :
  ~ (forall w e module_files,
       context_dir_exists w = true ->
       config_exists w = true ->
       source_dir_check w = Returned true ->
       scanner_run w = Returned module_files ->
       rules_indexer_run w = Raised e ->
       exists idx, index_file (run w).2 = Some idx
         /\ index_errors idx = Some ["Rules indexer failed: " +:+ e])
  /\ errors (st_stats (run failing_rules_read_only_world).2)
     = ["Rules indexer failed: No such file or directory: '.context/config.json'"]
  /\ index_file (run failing_rules_read_only_world).2 = None
  /\ ("✅ Master index updated" ∉ printed (run failing_rules_read_only_world).2)
  /\ ("⚠️ Failed to update master index: Read-only file system: '.context/index.json'"
       ∈ printed (run failing_rules_read_only_world).2)
  /\ exit_code failing_rules_read_only_world = 0.
Proof.
  split; [|split; [|split; [|split; [|split]]]].
  - intros H.
    destruct (H failing_rules_read_only_world _ _ eq_refl eq_refl eq_refl eq_refl eq_refl)
      as (idx & Hidx & _).
    vm_compute in Hidx. discriminate Hidx.
  - vm_compute. reflexivity.
  - vm_compute. reflexivity.
  - intros Hin. vm_compute in Hin.
    repeat (apply elem_of_cons in Hin as [Hin|Hin]; [discriminate Hin|]).
    by apply elem_of_nil in Hin.
  - vm_compute. in_list.
  - vm_compute. reflexivity.
Qed.

(** C9, amended. When the requirement checks pass and the scanner returns,
    an exception [e] raised by the rules indexer is caught: its message is
    printed, it is the one entry of the run's error list, the run goes on
    to the update of the master index and to the summary, which is printed
    as the last lines with the error listed, and [run] returns [True], so
    that the exit status is zero.  The error list is persisted only when
    the index update itself does not raise: then the master index holds
    that error list and the run's statistics and the update is reported;
    when reading or writing [index.json] raises, a warning with that
    exception is printed and the orchestrator leaves no index behind. *)
Theorem rules_indexer_failure_is_swallowed (w : world) (e : string)
    (module_files : list (string * nat)) :
  context_dir_exists w = true ->
  config_exists w = true ->
  source_dir_check w = Returned true ->
  scanner_run w = Returned module_files ->
  rules_indexer_run w = Raised e ->
  let msg := "Rules indexer failed: " +:+ e in
  let st := (run w).2 in
  ("⚠️ " +:+ msg) ∈ printed st
  /\ errors (st_stats st) = [msg]
  /\ (index_io w = None ->
      exists idx, index_file st = Some idx
        /\ index_errors idx = Some [msg]
        /\ index_stats_entry idx =
             Some (IndexStats (length module_files) (sum_list (module_files.*2)) 0 (duration w))
        /\ "✅ Master index updated" ∈ printed st)
  /\ (forall e', index_io w = Some e' ->
        index_file st = None
        /\ ("⚠️ Failed to update master index: " +:+ e') ∈ printed st)
  /\ (exists before, printed st = before ++ summary_lines w (st_stats st))
  /\ ("  - " +:+ msg) ∈ summary_lines w (st_stats st)
  /\ (run w).1 = true
  /\ exit_code w = 0.
Proof.
  intros Hdir Hcfg Hsrc Hscan Hrules msg st.
  assert (Hrun : run w =
    (true, generate_summary w (update_master_index w
       (run_rules_indexer w (run_scanner w (check_requirements w (banner w initial_state)).2).2).2))).
  { unfold run, check_requirements, run_scanner, run_rules_indexer.
    rewrite Hdir, Hcfg, Hsrc, Hscan, Hrules. reflexivity. }
  subst st. unfold exit_code. rewrite Hrun. cbn [fst snd].
  set (st3 := (run_rules_indexer w _).2).
  assert (Hst3 : errors (st_stats st3) = [msg]
                 /\ ("⚠️ " +:+ msg) ∈ printed st3
                 /\ modules_indexed (st_stats st3) = length module_files
                 /\ files_processed (st_stats st3) = sum_list (module_files.*2)
                 /\ rules_indexed (st_stats st3) = 0
                 /\ index_file st3 = None).
  { subst st3. unfold run_rules_indexer, run_scanner, check_requirements.
    rewrite Hdir, Hcfg, Hsrc, Hscan, Hrules. cbn.
    repeat split; try reflexivity. in_list. }
  destruct Hst3 as (Herr & Hlog & Hmod & Hfiles & Hrl & Hnone).
  set (st4 := update_master_index w st3).
  assert (Hst4 : st_stats st4 = st_stats st3
                 /\ (forall l, l ∈ printed st3 -> l ∈ printed st4)).
  { subst st4. unfold update_master_index. destruct (index_io w); cbn.
    - split; [reflexivity|]. intros l Hl. rewrite !elem_of_app. auto.
    - split; [reflexivity|]. intros l Hl. rewrite !elem_of_app. auto. }
  destruct Hst4 as (Hstats4 & Hlog4).
  destruct (generate_summary_printed w st4) as (Hp & Hs & Hi).
  rewrite Hp, Hs, Hi, Hstats4, Herr.
  split; [|split; [|split; [|split; [|split; [|split; [|split]]]]]].
  - rewrite elem_of_app. left. auto.
  - reflexivity.
  - intros Hio. subst st4. unfold update_master_index. rewrite Hio. cbn.
    rewrite Herr, Hmod, Hfiles, Hrl. cbn.
    eexists. split; [reflexivity|]. cbn. repeat split; try reflexivity.
    rewrite !elem_of_app. left. right. in_list.
  - intros e' Hio. subst st4. unfold update_master_index. rewrite Hio.
    cbn [print index_file printed]. split; [exact Hnone|].
    rewrite !elem_of_app. left. right. in_list.
  - eexists. reflexivity.
  - unfold summary_lines. rewrite Herr. cbn. in_list.
  - reflexivity.
  - reflexivity.
Qed.

Lemma rules_indexer_failure_is_swallowed_witness :
  (run failing_rules_world).1 = true /\ exit_code failing_rules_world = 0.
Proof.
  pose proof (rules_indexer_failure_is_swallowed failing_rules_world
                "No such file or directory: '.context/config.json'"
                [("Core", 3); ("Misc", 1)]
                eq_refl eq_refl eq_refl eq_refl eq_refl) as H.
  cbv zeta in H.
  destruct H as (_ & _ & _ & _ & _ & _ & Hrun & Hexit).
  exact (conj Hrun Hexit).
Defined.

End MasterIndexerFacts.
